(** * Laundry order dashboard: recurring-order projection, GST display and
      the modification workflow

    The calendar component [OrderCalendar] expands a recurring order into
    future delivery dates ([generateRecurringOccurrences]) and shows the
    stored amount with a GST breakdown.  Both are embedded here from the
    JavaScript source.  Dates are ECMAScript time values (milliseconds since
    the epoch) read in a local zone with a fixed offset; amounts are IEEE-754
    binary64 numbers, as every JavaScript number is.

    The second part covers more of the same components: the month grid and
    the grouping of orders by day of the calendar, the pages, page controls
    and filters of the driver's delivery list, the notification updates of
    the dashboard layout, and the [Date] methods in a time zone. *)

From Stdlib Require Import ZArith List String Ascii Bool Lia DecimalString Sorted.
From Stdlib Require Import PrimFloat FloatOps SpecFloat.
Import ListNotations.

#[local] Open Scope Z_scope.

(** ** ECMAScript dates

    [Date] objects are time values; the day and calendar functions follow
    the abstract operations of the language specification (Day,
    TimeWithinDay, DayFromYear, YearFromTime, MonthFromTime, DateFromTime,
    MakeDay, MakeDate).  The methods are written on local times, which is
    how they act in a zone whose offset from UTC is fixed (no daylight
    saving); the part on time zones has them for a zone in general and
    relates the two.  Time values are not clipped to
    the range of [Date] (8.64e15 ms either side of the epoch): past it
    JavaScript yields an Invalid Date, which fails every comparison of the
    loop, so that the loop is left with nothing more pushed; here a date
    that far ahead is past the horizon, and one that far back is before the
    start and is never pushed either. *)
Module JSDate.

Definition msPerDay : Z := 86400000.

Definition Day (t : Z) : Z := t / msPerDay.
Definition TimeWithinDay (t : Z) : Z := t mod msPerDay.

Definition DayFromYear (y : Z) : Z :=
  365 * (y - 1970) + (y - 1969) / 4 - (y - 1901) / 100 + (y - 1601) / 400.

Definition InLeapYear (y : Z) : bool :=
  ((y mod 4 =? 0) && negb (y mod 100 =? 0)) || (y mod 400 =? 0).

Definition DaysInYear (y : Z) : Z := if InLeapYear y then 366 else 365.

(** The largest year whose first day is not after day [d]: an estimate from
    the mean year length, corrected by at most one year either way. *)
Definition YearFromDay (d : Z) : Z :=
  let y0 := 1970 + (400 * d) / 146097 in
  if DayFromYear (y0 + 1) <=? d then y0 + 1
  else if DayFromYear y0 <=? d then y0
  else y0 - 1.

(** Day within the year on which month [m] (0 = January) starts; month 12
    stands for the start of the next year. *)
Definition monthStart (leap : bool) (m : Z) : Z :=
  let l := if leap then 1 else 0 in
  match m with
  | 0 => 0
  | 1 => 31
  | 2 => 59 + l
  | 3 => 90 + l
  | 4 => 120 + l
  | 5 => 151 + l
  | 6 => 181 + l
  | 7 => 212 + l
  | 8 => 243 + l
  | 9 => 273 + l
  | 10 => 304 + l
  | 11 => 334 + l
  | _ => 365 + l
  end.

Definition DayWithinYear (d : Z) : Z := d - DayFromYear (YearFromDay d).

Definition MonthFromDay (d : Z) : Z :=
  let leap := InLeapYear (YearFromDay d) in
  let doy := DayWithinYear d in
  if doy <? monthStart leap 1 then 0
  else if doy <? monthStart leap 2 then 1
  else if doy <? monthStart leap 3 then 2
  else if doy <? monthStart leap 4 then 3
  else if doy <? monthStart leap 5 then 4
  else if doy <? monthStart leap 6 then 5
  else if doy <? monthStart leap 7 then 6
  else if doy <? monthStart leap 8 then 7
  else if doy <? monthStart leap 9 then 8
  else if doy <? monthStart leap 10 then 9
  else if doy <? monthStart leap 11 then 10
  else 11.

Definition DateFromDay (d : Z) : Z :=
  DayWithinYear d - monthStart (InLeapYear (YearFromDay d)) (MonthFromDay d) + 1.

(** MakeDay: the month may lie outside 0..11 and the date outside the
    month; both carry over. *)
Definition MakeDay (year month date : Z) : Z :=
  let ym := year + month / 12 in
  let mn := month mod 12 in
  DayFromYear ym + monthStart (InLeapYear ym) mn + date - 1.

Definition MakeDate (day time : Z) : Z := day * msPerDay + time.

(** The methods of [Date.prototype] the component reaches through date-fns. *)
Definition getFullYear (t : Z) : Z := YearFromDay (Day t).
Definition getMonth (t : Z) : Z := MonthFromDay (Day t).
Definition getDate (t : Z) : Z := DateFromDay (Day t).

Definition setDate (t dt : Z) : Z :=
  MakeDate (MakeDay (getFullYear t) (getMonth t) dt) (TimeWithinDay t).

Definition setMonth (t month dt : Z) : Z :=
  MakeDate (MakeDay (getFullYear t) month dt) (TimeWithinDay t).

Definition setFullYear (t year month dt : Z) : Z :=
  MakeDate (MakeDay year month dt) (TimeWithinDay t).

(** A time value built from calendar fields, for writing examples. *)
Definition ymd_hms (y mo d h mi s : Z) : Z :=
  MakeDate (MakeDay y (mo - 1) d) (((h * 60 + mi) * 60 + s) * 1000).

Definition ymd (y mo d : Z) : Z := ymd_hms y mo d 0 0 0.

End JSDate.

(** ** date-fns

    [addDays], [addWeeks] and [addMonths] as the library defines them on top
    of the [Date] methods.  An amount of zero returns the date as it is. *)
Module DateFns.
Import JSDate.

Definition addDays (date amount : Z) : Z :=
  if amount =? 0 then date
  else setDate date (getDate date + amount).

Definition addWeeks (date amount : Z) : Z := addDays date (amount * 7).

Definition addMonths (date amount : Z) : Z :=
  if amount =? 0 then date
  else
    let dayOfMonth := getDate date in
    let endOfDesiredMonth := setMonth date (getMonth date + amount + 1) 0 in
    let daysInMonth := getDate endOfDesiredMonth in
    if dayOfMonth >=? daysInMonth then endOfDesiredMonth
    else setFullYear date (getFullYear endOfDesiredMonth)
                     (getMonth endOfDesiredMonth) dayOfMonth.

End DateFns.

Import JSDate DateFns.

(** Months counted from January of year 0: the first day of month [k], and
    the month a day falls in. *)
Definition firstOfMonth (k : Z) : Z := MakeDay 0 k 1.

Definition monthIndex (d : Z) : Z := 12 * YearFromDay d + MonthFromDay d.

#[local] Open Scope string_scope.
#[local] Open Scope list_scope.
#[local] Open Scope Z_scope.

(** ** Number formatting shared by [format] and [toFixed] *)

Definition digits (n : Z) : string := NilZero.string_of_uint (N.to_uint (Z.to_N n)).

Fixpoint zeros (k : nat) : string :=
  match k with
  | O => ""
  | S k' => ("0" ++ zeros k')%string
  end.

(** date-fns [addLeadingZeros]: the digits of a non-negative number, padded
    on the left up to [targetLength]. *)
Definition addLeadingZeros (n : Z) (targetLength : nat) : string :=
  let d := digits n in
  (zeros (targetLength - String.length d) ++ d)%string.

(** [format(date, "yyyy-MM-dd'T'HH:mm:ss")]; the year token prints the year
    of the era, as date-fns does for years before 1. *)
Definition format (date : Z) : string :=
  let signedYear := getFullYear date in
  let year := if 0 <? signedYear then signedYear else 1 - signedYear in
  let secs := TimeWithinDay date / 1000 in
  (addLeadingZeros year 4 ++ "-" ++
   addLeadingZeros (getMonth date + 1) 2 ++ "-" ++
   addLeadingZeros (getDate date) 2 ++ "T" ++
   addLeadingZeros (secs / 3600) 2 ++ ":" ++
   addLeadingZeros (secs / 60 mod 60) 2 ++ ":" ++
   addLeadingZeros (secs mod 60) 2)%string.

(** ** A reader for calendar dates

    The component reads [delivery_date] with date-fns [parseISO], which is
    taken as a parameter below ([None] stands for an Invalid Date).  This
    reader covers the two shapes the application itself writes, a calendar
    date and a calendar date with a time of day in local time; the
    examples use it. *)
Definition digitValue (c : ascii) : option Z :=
  let n := Z.of_nat (nat_of_ascii c) in
  if (48 <=? n) && (n <=? 57) then Some (n - 48) else None.

Fixpoint readNumber (acc : Z) (cs : list ascii) : option Z :=
  match cs with
  | [] => Some acc
  | c :: cs' =>
      match digitValue c with
      | Some v => readNumber (acc * 10 + v) cs'
      | None => None
      end
  end.

Definition number (s : string) : option Z :=
  match list_ascii_of_string s with
  | [] => None
  | cs => readNumber 0 cs
  end.

Definition daysInMonthOf (y mo : Z) : Z :=
  monthStart (InLeapYear y) mo - monthStart (InLeapYear y) (mo - 1).

Definition readDate (s : string) : option Z :=
  match number (substring 0 4 s), number (substring 5 2 s),
        number (substring 8 2 s) with
  | Some y, Some mo, Some d =>
      if (String.length s =? 10)%nat && (substring 4 1 s =? "-")%string
         && (substring 7 1 s =? "-")%string
         && (1 <=? mo) && (mo <=? 12) && (1 <=? d) && (d <=? daysInMonthOf y mo)
      then Some (ymd y mo d) else None
  | _, _, _ => None
  end.

Definition readTime (s : string) : option Z :=
  match number (substring 0 2 s), number (substring 3 2 s),
        number (substring 6 2 s) with
  | Some h, Some mi, Some sec =>
      if (String.length s =? 8)%nat && (substring 2 1 s =? ":")%string
         && (substring 5 1 s =? ":")%string
         && (h <=? 23) && (mi <=? 59) && (sec <=? 59)
      then Some (((h * 60 + mi) * 60 + sec) * 1000) else None
  | _, _, _ => None
  end.

Definition parseCalendarDate (s : string) : option Z :=
  match readDate (substring 0 10 s) with
  | None => None
  | Some day =>
      if (String.length s =? 10)%nat then Some day
      else if (substring 10 1 s =? "T")%string then
        match readTime (substring 11 (String.length s - 11) s) with
        | Some tod => Some (day + tod)
        | None => None
        end
      else None
  end.

(** ** Orders *)

Record RecurrencePattern := {
  frequency_type : string;
  frequency_value : option Z   (* [None]: the property is undefined *)
}.

Record Item := {
  item_name : string;
  quantity : option float;   (* [None]: the value is missing *)
  price : option float
}.

Record Modifications := {
  proposed_items : option (list Item);
  proposed_total_amount : option float
}.

Inductive ModificationStatus := Pending | Approved | Rejected.

Record Order := {
  id : string;
  is_recurring : bool;
  recurrence_pattern : option RecurrencePattern;
  delivery_date : option string;
  status : string;
  items : list Item;
  total_amount : float;
  modification_status : option ModificationStatus;
  pending_modifications : option Modifications
}.

(** The object each pass of the loop pushes:
    [{...order, delivery_date, isRecurringInstance: true, originalOrderId}]. *)
Record Occurrence := {
  occurrence_order : Order;
  isRecurringInstance : bool;
  originalOrderId : string
}.

Definition with_delivery_date (order : Order) (d : string) : Order :=
  {| id := id order;
     is_recurring := is_recurring order;
     recurrence_pattern := recurrence_pattern order;
     delivery_date := Some d;
     status := status order;
     items := items order;
     total_amount := total_amount order;
     modification_status := modification_status order;
     pending_modifications := pending_modifications order |}.

Definition occurrenceAt (order : Order) (currentDate : Z) : Occurrence :=
  {| occurrence_order := with_delivery_date order (format currentDate);
     isRecurringInstance := true;
     originalOrderId := id order |}.

(** ** generateRecurringOccurrences *)

Definition maxIterations : Z := 200.

(** The variables of the [while] loop.  [occurrences] holds the dates at
    which an object was pushed, oldest first. *)
Record LoopState := {
  currentDate : Z;
  iteration : Z;
  occurrences : list Z
}.

(** The branch on [frequency_type]; [None] is the [break]. *)
Definition nextOccurrence (frequency_type : string) (frequency_value : Z)
    (currentDate : Z) : option Z :=
  if (frequency_type =? "daily")%string then Some (addDays currentDate frequency_value)
  else if (frequency_type =? "weekly")%string then Some (addWeeks currentDate frequency_value)
  else if (frequency_type =? "monthly")%string then Some (addMonths currentDate frequency_value)
  else None.

(** The loop, with [fuel] passes allowed; [None] when the passes run out
    before the loop has left. *)
Fixpoint occurrenceLoop (fuel : nat) (frequency_type : string)
    (frequency_value startDate sixMonthsFromNow : Z) (st : LoopState)
    : option LoopState :=
  if (currentDate st <=? sixMonthsFromNow) && (iteration st <? maxIterations)
  then
    match fuel with
    | O => None
    | S fuel' =>
        let pushed :=
          if startDate <? currentDate st
          then occurrences st ++ [currentDate st]
          else occurrences st in
        match nextOccurrence frequency_type frequency_value (currentDate st) with
        | None =>
            Some {| currentDate := currentDate st;
                    iteration := iteration st;
                    occurrences := pushed |}
        | Some next =>
            occurrenceLoop fuel' frequency_type frequency_value startDate
              sixMonthsFromNow
              {| currentDate := next;
                 iteration := iteration st + 1;
                 occurrences := pushed |}
        end
    end
  else Some st.

(** [const { frequency_type, frequency_value = 1 } = order.recurrence_pattern]. *)
Definition frequencyValueOf (pattern : RecurrencePattern) : Z :=
  match frequency_value pattern with
  | Some v => v
  | None => 1
  end.

Definition recognized (frequency_type : string) : bool :=
  (frequency_type =? "daily")%string || (frequency_type =? "weekly")%string
  || (frequency_type =? "monthly")%string.

(** The loop from its initial state; [now] is what [new Date()] returns. *)
Definition projectionLoop (now : Z) (pattern : RecurrencePattern)
    (startDate : Z) : option LoopState :=
  occurrenceLoop (Z.to_nat maxIterations) (frequency_type pattern)
    (frequencyValueOf pattern) startDate (addMonths now 6)
    {| currentDate := startDate; iteration := 0; occurrences := [] |}.

Section Projection.

(** date-fns [parseISO]; [None] is an Invalid Date, on which every
    comparison of the loop condition is false. *)
Variable parseISO : string -> option Z.

(** The first [if] of the function: [Some] when the order passes it, with
    the pattern and the date string. *)
Definition projectable (order : Order) : option (RecurrencePattern * string) :=
  if negb (is_recurring order) then None
  else
    match recurrence_pattern order with
    | None => None
    | Some pattern =>
        match delivery_date order with
        | None => None
        | Some d =>
            if (d =? "")%string || (status order =? "cancelled")%string then None
            else Some (pattern, d)
        end
    end.

(** The final loop state of a call, when the loop is reached with a valid
    start date. *)
Definition projectionRun (now : Z) (order : Order) : option LoopState :=
  match projectable order with
  | None => None
  | Some (pattern, d) =>
      match parseISO d with
      | None => None
      | Some startDate => projectionLoop now pattern startDate
      end
  end.

(** The dates of the returned occurrences. *)
Definition occurrenceDates (now : Z) (order : Order) : option (list Z) :=
  match projectable order with
  | None => Some []
  | Some (pattern, d) =>
      match parseISO d with
      | None => Some []
      | Some startDate =>
          option_map occurrences (projectionLoop now pattern startDate)
      end
  end.

(** The function itself: the list it returns, one object per pushed date.
    [None] stands for a loop that is still running when its passes are
    used up. *)
Definition generateRecurringOccurrences (now : Z) (order : Order)
    : option (list Occurrence) :=
  option_map (map (occurrenceAt order)) (occurrenceDates now order).

End Projection.

(** ** The GST breakdown of the order dialog *)

#[local] Open Scope float_scope.

Definition GST_RATE : float := 0x1.999999999999ap-4.        (* 0.10 *)
Definition GST_INCLUSIVE : float := 0x1.199999999999ap+0.   (* 1.10 *)

(** The integer [n] of [Number.prototype.toFixed] for two fraction digits:
    [n / 100] is as close as possible to the magnitude [m * 2^e], the larger
    [n] on a tie. *)
Definition nearestHundredths (m e : Z) : Z :=
  if (0 <=? e)%Z then (100 * m * 2 ^ e)%Z
  else ((200 * m + 2 ^ (- e)) / 2 ^ (- e + 1))%Z.

Definition fixed2 (negative : bool) (n : Z) : string :=
  ((if negative then "-" else "") ++
   digits (n / 100) ++ "." ++ addLeadingZeros (n mod 100) 2)%string.

(** The hundredths [toFixed(2)] prints, with the sign it prints; [None] for
    NaN, the infinities and magnitudes from 1e21 on, which are printed
    without rounding to hundredths. *)
Definition toFixedHundredths (x : float) : option (bool * Z) :=
  match Prim2SF x with
  | S754_zero _ => Some (false, 0%Z)
  | S754_finite s m e =>
      if (1000000000000000000000 <=? Z.pos m * 2 ^ e)%Z then None
      else Some (s, nearestHundredths (Z.pos m) e)
  | _ => None
  end.

Definition toFixed (x : float) : option string :=
  option_map (fun sn => fixed2 (fst sn) (snd sn)) (toFixedHundredths x).

(** The signed value in hundredths of what [toFixed(2)] prints. *)
Definition hundredths (x : float) : option Z :=
  option_map (fun sn => if fst sn : bool then (- snd sn)%Z else snd sn)
    (toFixedHundredths x).

(** JavaScript truthiness of a number: neither zero nor NaN. *)
Definition truthy (x : float) : bool :=
  match Prim2SF x with
  | S754_zero _ | S754_nan => false
  | _ => true
  end.

Record GstBreakdown := {
  baseAmount : option string;      (* total_amount.toFixed(2) *)
  gstAmount : option string;       (* (total_amount * 0.10).toFixed(2) *)
  totalIncGst : option string      (* (total_amount * 1.10).toFixed(2) *)
}.

(** [!hidePricing && selectedOrder.total_amount && (...)]: what the block
    shows, [None] when it is not rendered. *)
Definition gstBreakdown (hidePricing : bool) (selectedOrder : Order)
    : option GstBreakdown :=
  if negb hidePricing && truthy (total_amount selectedOrder) then
    Some {| baseAmount := toFixed (total_amount selectedOrder);
            gstAmount := toFixed (total_amount selectedOrder * GST_RATE);
            totalIncGst := toFixed (total_amount selectedOrder * GST_INCLUSIVE) |}
  else None.

#[local] Close Scope float_scope.


(** ** The modification workflow *)

Inductive WorkflowError := NoPendingModificationError | InvalidItemError.

Inductive Result (A : Type) :=
  | Ok (a : A)
  | Err (e : WorkflowError).
Arguments Ok {A} a.
Arguments Err {A} e.

(** Modelled from the spec: a quantity or unit price is valid when it is
    there and is not negative; a missing value, a negative one and one that
    is no number fail the test. *)
Definition validValue (v : option float) : bool :=
  match v with
  | Some x => (0 <=? x)%float
  | None => false
  end.

Definition validItem (it : Item) : bool :=
  validValue (quantity it) && validValue (price it).

(** Quantity times unit price of one item. *)
Definition lineTotal (it : Item) : Result float :=
  match quantity it, price it with
  | Some q, Some p =>
      if validItem it then Ok (q * p)%float else Err InvalidItemError
  | _, _ => Err InvalidItemError
  end.

Fixpoint subtotalFrom (acc : float) (its : list Item) : Result float :=
  match its with
  | [] => Ok acc
  | it :: rest =>
      match lineTotal it with
      | Ok x => subtotalFrom (acc + x)%float rest
      | Err e => Err e
      end
  end.

(** Modelled from the spec: the subtotal of PriceCalculator, the sum over
    the items of quantity times unit price, which fails with an
    InvalidItemError when a quantity or unit price is negative or missing;
    the price code of the backend (backend/server.py) is not among the
    sources. *)
Definition subtotal (its : list Item) : Result float := subtotalFrom 0%float its.

Definition proposedItems (order : Order) : option (list Item) :=
  match pending_modifications order with
  | Some pm => proposed_items pm
  | None => None
  end.

Definition proposedTotal (order : Order) : option float :=
  match pending_modifications order with
  | Some pm => proposed_total_amount pm
  | None => None
  end.

Definition isPending (order : Order) : bool :=
  match modification_status order with
  | Some Pending => true
  | _ => false
  end.

(** The order after an approval that sets its items and its total. *)
Definition approved (order : Order) (its : list Item) (total : float) : Order :=
  {| id := id order;
     is_recurring := is_recurring order;
     recurrence_pattern := recurrence_pattern order;
     delivery_date := delivery_date order;
     status := status order;
     items := its;
     total_amount := total;
     modification_status := Some Approved;
     pending_modifications := None |}.

(** Modelled from the spec: approve of ModificationWorkflow (the
    approve-modification endpoint of backend/server.py is not among the
    sources).  It requires a pending proposal, takes the total from the
    proposed items when there are any, else the proposal's explicit total,
    replaces the items by the proposed ones, marks the order approved and
    clears the proposal.  When the subtotal of the proposed items fails, so
    does the approval, and no order is returned. *)
Definition approve (order : Order) : Result Order :=
  if isPending order then
    match proposedItems order with
    | Some its =>
        match subtotal its with
        | Ok total => Ok (approved order its total)
        | Err e => Err e
        end
    | None =>
        Ok (approved order (items order)
              (match proposedTotal order with
               | Some t => t
               | None => total_amount order
               end))
    end
  else Err NoPendingModificationError.

(** Modelled from the spec: reject of ModificationWorkflow (the
    reject-modification endpoint of backend/server.py is not among the
    sources).  It requires a pending proposal, keeps items and total, marks
    the order rejected and clears the proposal. *)
Definition reject (order : Order) : Result Order :=
  if isPending order then
    Ok {| id := id order;
          is_recurring := is_recurring order;
          recurrence_pattern := recurrence_pattern order;
          delivery_date := delivery_date order;
          status := status order;
          items := items order;
          total_amount := total_amount order;
          modification_status := Some Rejected;
          pending_modifications := None |}
  else Err NoPendingModificationError.

(** ** Example orders *)

Definition shirt (q p : float) : Item :=
  {| item_name := "Shirt"; quantity := Some q; price := Some p |}.

Definition weeklyOrder : Order :=
  {| id := "ord-1"; is_recurring := true;
     recurrence_pattern :=
       Some {| frequency_type := "weekly"; frequency_value := Some 1 |};
     delivery_date := Some "2025-01-01"; status := "scheduled";
     items := [shirt 2 30]; total_amount := 60%float;
     modification_status := None; pending_modifications := None |}.

Definition cancelledOrder : Order :=
  {| id := "ord-2"; is_recurring := true;
     recurrence_pattern :=
       Some {| frequency_type := "weekly"; frequency_value := Some 1 |};
     delivery_date := Some "2025-01-01"; status := "cancelled";
     items := [shirt 2 30]; total_amount := 60%float;
     modification_status := None; pending_modifications := None |}.

Definition withPattern (order : Order) (ft : string) (fv : option Z) : Order :=
  {| id := id order; is_recurring := is_recurring order;
     recurrence_pattern :=
       Some {| frequency_type := ft; frequency_value := fv |};
     delivery_date := delivery_date order; status := status order;
     items := items order; total_amount := total_amount order;
     modification_status := modification_status order;
     pending_modifications := pending_modifications order |}.

Definition withAmount (order : Order) (amount : float) : Order :=
  {| id := id order; is_recurring := is_recurring order;
     recurrence_pattern := recurrence_pattern order;
     delivery_date := delivery_date order; status := status order;
     items := items order; total_amount := amount;
     modification_status := modification_status order;
     pending_modifications := pending_modifications order |}.

Definition proposedOrder : Order :=
  {| id := "ord-1"; is_recurring := true;
     recurrence_pattern :=
       Some {| frequency_type := "weekly"; frequency_value := Some 1 |};
     delivery_date := Some "2025-01-01"; status := "scheduled";
     items := [shirt 2 30]; total_amount := 60%float;
     modification_status := Some Pending;
     pending_modifications :=
       Some {| proposed_items := Some [shirt 1 60; shirt 1 35];
               proposed_total_amount := Some 95%float |} |}.

(** The same order with a proposal of one shirt at a negative price. *)
Definition negativeProposal : Order :=
  {| id := "ord-1"; is_recurring := true;
     recurrence_pattern :=
       Some {| frequency_type := "weekly"; frequency_value := Some 1 |};
     delivery_date := Some "2025-01-01"; status := "scheduled";
     items := [shirt 2 30]; total_amount := 60%float;
     modification_status := Some Pending;
     pending_modifications :=
       Some {| proposed_items := Some [shirt 1 (-30)];
               proposed_total_amount := Some (-30)%float |} |}.

(** ** Further definitions: sequences of dates *)

(** [chained R a l]: the first element of [l] follows [a] by [R], and each
    further element follows the one before it. *)
Fixpoint chained {A : Type} (R : A -> A -> Prop) (a : A) (l : list A) : Prop :=
  match l with
  | [] => True
  | b :: l' => R a b /\ chained R b l'
  end.

(** [b] is the date one interval after [a]. *)
Definition oneInterval (frequency_type : string) (frequency_value a b : Z) : Prop :=
  nextOccurrence frequency_type frequency_value a = Some b.

(** The loop state between two passes when each step moves forward: before
    the first pass the date is the start and nothing is pushed; afterwards
    the pushed dates and the current date form a chain of steps from the
    start, and the counter is one more than the number of pushed dates. *)
Definition betweenPasses (frequency_type : string)
    (frequency_value startDate : Z) (st : LoopState) : Prop :=
  (currentDate st = startDate /\ occurrences st = [] /\ iteration st = 0) \/
  (startDate < currentDate st /\
   chained (oneInterval frequency_type frequency_value) startDate
     (occurrences st ++ [currentDate st]) /\
   iteration st = Z.of_nat (List.length (occurrences st)) + 1).

(** The number of days of month [k], months counted as by [firstOfMonth]. *)
Definition monthLength (k : Z) : Z := firstOfMonth (k + 1) - firstOfMonth k.

(** ** The month the calendar shows *)

(** Further [Date] methods and date-fns functions the component uses to lay
    out a month. *)
Definition WeekDay (day : Z) : Z := (day + 4) mod 7.

Definition getDay (t : Z) : Z := WeekDay (Day t).

Definition MakeTime (hour min sec ms : Z) : Z :=
  ((hour * 60 + min) * 60 + sec) * 1000 + ms.

Definition setHours (t hour min sec ms : Z) : Z :=
  MakeDate (Day t) (MakeTime hour min sec ms).

Definition subMonths (date amount : Z) : Z := addMonths date (- amount).

Definition startOfMonth (date : Z) : Z := setHours (setDate date 1) 0 0 0 0.

Definition endOfMonth (date : Z) : Z :=
  let month := getMonth date in
  setHours (setFullYear date (getFullYear date) (month + 1) 0) 23 59 59 999.

(** The loop of [eachDayOfInterval], with [fuel] passes allowed. *)
Fixpoint eachDayLoop (fuel : nat) (currentDate endTime : Z) (dates : list Z)
    : option (list Z) :=
  if currentDate <=? endTime then
    match fuel with
    | O => None
    | S fuel' =>
        eachDayLoop fuel'
          (setHours (setDate currentDate (getDate currentDate + 1)) 0 0 0 0)
          endTime (dates ++ [currentDate])
    end
  else Some dates.

(** [eachDayOfInterval({ start, end })] for an interval that runs forward.
    [None] when the passes run out, and for an interval whose start is
    after its end, where the versions of the library differ (a RangeError,
    or the days listed backwards); the calendar never asks for one. *)
Definition eachDayOfInterval (fuel : nat) (start end_ : Z) : option (list Z) :=
  if start <=? end_ then eachDayLoop fuel (setHours start 0 0 0 0) end_ []
  else None.

Module OrderCalendar.

(** The state [currentDate] of the component decides the month shown. *)
Definition monthStart (currentDate : Z) : Z := startOfMonth currentDate.

Definition monthEnd (currentDate : Z) : Z := endOfMonth currentDate.

(** 31 passes are allowed to the loop of [eachDayOfInterval]. *)
Definition daysInMonth (currentDate : Z) : option (list Z) :=
  eachDayOfInterval 31 (monthStart currentDate) (monthEnd currentDate).

(** [Array.from({ length: monthStart.getDay() })]: the empty cells before
    the first day. *)
Definition emptyCells (currentDate : Z) : Z := getDay (monthStart currentDate).

Definition goToPreviousMonth (currentDate : Z) : Z := subMonths currentDate 1.

Definition goToNextMonth (currentDate : Z) : Z := addMonths currentDate 1.

(** *** Orders by date *)

(** What a day of the calendar lists: an order, or an occurrence projected
    from a recurring one. *)
Inductive Entry :=
  | Real (order : Order)
  | Projected (occurrence : Occurrence).

Definition entryStatus (e : Entry) : string :=
  match e with
  | Real order => status order
  | Projected occurrence => status (occurrence_order occurrence)
  end.

Record DayOrders := {
  pickup : list Entry;
  delivery : list Entry
}.

(** The object [grouped], keyed by the day as [yyyy-MM-dd]. *)
Definition Grouped : Type := list (string * DayOrders).

Fixpoint lookup (key : string) (grouped : Grouped) : option DayOrders :=
  match grouped with
  | [] => None
  | (k, day) :: rest => if (k =? key)%string then Some day else lookup key rest
  end.

(** [if (!grouped[key]) grouped[key] = { pickup: [], delivery: [] };
     grouped[key].delivery.push(e)]. *)
Fixpoint pushDelivery (key : string) (e : Entry) (grouped : Grouped) : Grouped :=
  match grouped with
  | [] => [(key, {| pickup := []; delivery := [e] |})]
  | (k, day) :: rest =>
      if (k =? key)%string
      then (k, {| pickup := pickup day; delivery := delivery day ++ [e] |}) :: rest
      else (k, day) :: pushDelivery key e rest
  end.

(** [format(date, 'yyyy-MM-dd')]. *)
Definition formatDay (date : Z) : string :=
  let signedYear := getFullYear date in
  let year := if 0 <? signedYear then signedYear else 1 - signedYear in
  (addLeadingZeros year 4 ++ "-" ++
   addLeadingZeros (getMonth date + 1) 2 ++ "-" ++
   addLeadingZeros (getDate date) 2)%string.

(** The filter of [filteredOrders]. *)
Definition filteredOrders (orderTypeFilter statusFilter : string)
    (orders : list Order) : list Order :=
  filter
    (fun order =>
       if (orderTypeFilter =? "recurring")%string && negb (is_recurring order)
       then false
       else if (orderTypeFilter =? "one-time")%string && is_recurring order
       then false
       else if negb (statusFilter =? "all")%string
               && negb (status order =? statusFilter)%string
       then false
       else true)
    orders.

Section OrdersByDate.

Variable parseISO : string -> option Z.

(** [String.prototype.trim]. *)
Variable trim : string -> string.

(** [format(parseISO(s), 'yyyy-MM-dd')]; [format] throws a RangeError on an
    Invalid Date, which is [None] here. *)
Definition dayKey (s : string) : option string :=
  option_map formatDay (parseISO s).

(** The occurrences of an order; the projection always returns a list. *)
Definition futureOccurrences (now : Z) (order : Order) : list Occurrence :=
  match generateRecurringOccurrences parseISO now order with
  | Some occurrences => occurrences
  | None => []
  end.

(** The inner [forEach]: an occurrence whose date cannot be formatted is
    caught and left out. *)
Definition addOccurrence (grouped : Grouped) (occurrence : Occurrence) : Grouped :=
  match delivery_date (occurrence_order occurrence) with
  | None => grouped
  | Some s =>
      match dayKey s with
      | None => grouped
      | Some occurrenceDate => pushDelivery occurrenceDate (Projected occurrence) grouped
      end
  end.

(** One pass of the outer [forEach]; an order whose date cannot be
    formatted is caught and left out.  All calls of one rendering read the
    clock as [now]. *)
Definition addOrder (dateTypeFilter : string) (now : Z) (grouped : Grouped)
    (order : Order) : Grouped :=
  match delivery_date order with
  | None => grouped
  | Some s =>
      let deliveryDateValue := trim s in
      if negb (deliveryDateValue =? "")%string
         && ((dateTypeFilter =? "all")%string || (dateTypeFilter =? "delivery")%string)
      then
        match dayKey deliveryDateValue with
        | None => grouped
        | Some deliveryDate =>
            let grouped1 := pushDelivery deliveryDate (Real order) grouped in
            if is_recurring order
               && (match recurrence_pattern order with Some _ => true | None => false end)
            then fold_left addOccurrence (futureOccurrences now order) grouped1
            else grouped1
        end
      else grouped
  end.

Definition ordersByDate (dateTypeFilter : string) (now : Z)
    (filteredOrders : list Order) : Grouped :=
  fold_left (addOrder dateTypeFilter now) filteredOrders [].

(** An occurrence belongs to the day [k]: its own date reads as that day. *)
Definition occurrenceOn (k : string) (occurrence : Occurrence) : Prop :=
  exists s, delivery_date (occurrence_order occurrence) = Some s /\
            dayKey s = Some k.

(** An order belongs to the day [k]: the date filter lets deliveries
    through, and its trimmed delivery date is not empty and reads as that
    day. *)
Definition orderOn (dateTypeFilter k : string) (order : Order) : Prop :=
  (dateTypeFilter = "all" \/ dateTypeFilter = "delivery") /\
  exists s, delivery_date order = Some s /\ trim s <> "" /\
            dayKey (trim s) = Some k.

End OrdersByDate.

(** An entry is listed among the deliveries of the day [k]. *)
Definition listed (g : Grouped) (k : string) (x : Entry) : Prop :=
  In x (delivery (match lookup k g with
                  | Some day => day
                  | None => {| pickup := []; delivery := [] |}
                  end)).

(** [ordersByDate[dateStr] || { pickup: [], delivery: [] }]. *)
Definition ordersForKey (ordersByDate : Grouped) (dateStr : string) : DayOrders :=
  match lookup dateStr ordersByDate with
  | Some day => day
  | None => {| pickup := []; delivery := [] |}
  end.

Definition getOrdersForDate (ordersByDate : Grouped) (date : Z) : DayOrders :=
  let dateStr := formatDay date in
  ordersForKey ordersByDate dateStr.

(** *** The badges of a day cell *)

Definition dayEntries (dayOrders : DayOrders) : list Entry :=
  pickup dayOrders ++ delivery dayOrders.

Definition isCancelled (e : Entry) : bool := (entryStatus e =? "cancelled")%string.

Definition isCompleted (e : Entry) : bool :=
  existsb (String.eqb (entryStatus e)) ["delivered"; "completed"].

Definition isInProgress (e : Entry) : bool :=
  existsb (String.eqb (entryStatus e)) ["in_progress"; "processing"; "out_for_delivery"].

Definition hasCancelledOrders (dayOrders : DayOrders) : bool :=
  existsb isCancelled (dayEntries dayOrders).

Definition hasCompletedOrders (dayOrders : DayOrders) : bool :=
  existsb isCompleted (dayEntries dayOrders).

Definition hasInProgressOrders (dayOrders : DayOrders) : bool :=
  existsb isInProgress (dayEntries dayOrders).

Definition cancelledCount (dayOrders : DayOrders) : nat :=
  List.length (filter isCancelled (dayEntries dayOrders)).

Definition completedCount (dayOrders : DayOrders) : nat :=
  List.length (filter isCompleted (dayEntries dayOrders)).

Definition inProgressCount (dayOrders : DayOrders) : nat :=
  List.length (filter isInProgress (dayEntries dayOrders)).

End OrderCalendar.

(** ** The driver dashboard: pages of the delivery list *)

Module Driver.

Definition itemsPerPage : Z := 20.

(** [Array.prototype.slice(start, end)]: a negative index counts from the
    end of the array, and both are cut to the array. *)
Definition slice {A : Type} (l : list A) (start end_ : Z) : list A :=
  let len := Z.of_nat (List.length l) in
  let k := if start <? 0 then Z.max (len + start) 0 else Z.min start len in
  let final := if end_ <? 0 then Z.max (len + end_) 0 else Z.min end_ len in
  firstn (Z.to_nat (final - k)) (skipn (Z.to_nat k) l).

(** [getPaginatedOrders], for the filtered and sorted [list]. *)
Definition getPaginatedOrders {A : Type} (list : Datatypes.list A)
    (currentPage : Z) : Datatypes.list A :=
  let startIndex := (currentPage - 1) * itemsPerPage in
  let endIndex := startIndex + itemsPerPage in
  slice list startIndex endIndex.

(** [Math.ceil(list.length / itemsPerPage)]. *)
Definition getTotalPages {A : Type} (list : Datatypes.list A) : Z :=
  - ((- Z.of_nat (List.length list)) / itemsPerPage).

(** What the row of page controls shows at one position. *)
Inductive PageControl :=
  | PageButton (pageNum : Z) (current : bool)
  | Ellipsis
  | Nothing.

(** The callback of [[...Array(getTotalPages())].map((_, idx) => ...)]. *)
Definition pageControl (totalPages currentPage : Z) (idx : nat) : PageControl :=
  let pageNum := Z.of_nat idx + 1 in
  if (pageNum =? 1) || (pageNum =? totalPages)
     || ((currentPage - 1 <=? pageNum) && (pageNum <=? currentPage + 1))
  then PageButton pageNum (currentPage =? pageNum)
  else if (pageNum =? currentPage - 2) || (pageNum =? currentPage + 2)
  then Ellipsis
  else Nothing.

(** [getTotalPages() > 1 && (...)]: the row is shown when there is more
    than one page. *)
Definition pageControls (totalPages currentPage : Z) : list PageControl :=
  if 1 <? totalPages
  then map (pageControl totalPages currentPage) (seq 0 (Z.to_nat totalPages))
  else [].

(** [toggleDriverStatusFilter]: the updater handed to
    [setDriverStatusFilter]. *)
Definition toggleDriverStatusFilter (status : string) (prev : list string)
    : list string :=
  if existsb (String.eqb status) prev
  then filter (fun s => negb (s =? status)%string) prev
  else prev ++ [status].

(** *** The date filter of the delivery list *)

(** [new Date(year, month, date)]: local midnight of the day; a year from 0
    to 99 stands for that year of the twentieth century. *)
Definition newDate (year month date : Z) : Z :=
  let yr := if (0 <=? year) && (year <=? 99) then 1900 + year else year in
  MakeDate (MakeDay yr month date) 0.

Definition dayName (weekDay : Z) : string :=
  match weekDay with
  | 0 => "Sun" | 1 => "Mon" | 2 => "Tue" | 3 => "Wed"
  | 4 => "Thu" | 5 => "Fri" | _ => "Sat"
  end.

Definition monthName (month : Z) : string :=
  match month with
  | 0 => "Jan" | 1 => "Feb" | 2 => "Mar" | 3 => "Apr" | 4 => "May"
  | 5 => "Jun" | 6 => "Jul" | 7 => "Aug" | 8 => "Sep" | 9 => "Oct"
  | 10 => "Nov" | _ => "Dec"
  end.

(** [Date.prototype.toDateString]; [None] is an Invalid Date. *)
Definition toDateString (d : option Z) : string :=
  match d with
  | None => "Invalid Date"
  | Some t =>
      let yv := getFullYear t in
      (dayName (getDay t) ++ " " ++ monthName (getMonth t) ++ " "
       ++ addLeadingZeros (getDate t) 2 ++ " "
       ++ (if (yv <? 0)%Z then "-" else "") ++ addLeadingZeros (Z.abs yv) 4)%string
  end.

(** Comparisons of dates, false on an Invalid Date. *)
Definition notBefore (d : option Z) (bound : Z) : bool :=
  match d with Some t => bound <=? t | None => false end.

Definition notAfter (d : option Z) (bound : Z) : bool :=
  match d with Some t => t <=? bound | None => false end.

Section DateFilter.

(** [new Date(string)], whose reading of a string is left to the browser;
    [None] is an Invalid Date. *)
Variable parseDate : string -> option Z.

(** The callback of the date filter for an order whose [delivery_date]
    reads as [d]. *)
Definition matchesDateFilter (driverDateFilter : string) (now : Z)
    (driverDateFrom driverDateTo : string) (d : option Z) : bool :=
  let today := newDate (getFullYear now) (getMonth now) (getDate now) in
  if (driverDateFilter =? "today")%string then
    (toDateString d =? toDateString (Some today))%string
  else if (driverDateFilter =? "week")%string then
    let startOfWeek :=
      setHours (setDate today (getDate today - getDay today)) 0 0 0 0 in
    let endOfWeek :=
      setHours (setDate startOfWeek (getDate startOfWeek + 6)) 23 59 59 999 in
    notBefore d startOfWeek && notAfter d endOfWeek
  else if (driverDateFilter =? "month")%string then
    let startOfMonth :=
      setHours (newDate (getFullYear today) (getMonth today) 1) 0 0 0 0 in
    let endOfMonth :=
      setHours (newDate (getFullYear today) (getMonth today + 1) 0) 23 59 59 999 in
    notBefore d startOfMonth && notAfter d endOfMonth
  else if (driverDateFilter =? "custom")%string then
    if negb (driverDateFrom =? "")%string || negb (driverDateTo =? "")%string then
      let from :=
        if (driverDateFrom =? "")%string then None
        else Some (parseDate driverDateFrom) in
      let to :=
        if (driverDateTo =? "")%string then None
        else Some (parseDate (driverDateTo ++ "T23:59:59.999")) in
      let beforeFrom :=
        match from, d with
        | Some (Some f), Some t => t <? f
        | _, _ => false
        end in
      let afterTo :=
        match to, d with
        | Some (Some e), Some t => e <? t
        | _, _ => false
        end in
      if beforeFrom then false else if afterTo then false else true
    else true
  else true.

End DateFilter.

End Driver.

(** ** The notifications of the dashboard layout *)

Module Layout.

Record Notification := {
  notif_id : string;
  is_read : bool;
  message : string
}.

Definition read (n : Notification) : Notification :=
  {| notif_id := notif_id n; is_read := true; message := message n |}.

(** The updaters [markAsRead] and [markAllAsRead] hand to
    [setNotifications]. *)
Definition markAsRead (notifId : string) (prev : list Notification)
    : list Notification :=
  map (fun n => if (notif_id n =? notifId)%string then read n else n) prev.

Definition markAllAsRead (prev : list Notification) : list Notification :=
  map read prev.

Definition unreadCount (notifications : list Notification) : nat :=
  List.length (filter (fun n => negb (is_read n)) notifications).

End Layout.

(** ** Time zones

    The [Date] methods read and write the fields of local time.  A zone is
    given by its two offsets from UTC in milliseconds, as the abstract
    operation LocalTZA of the language specification has them: the offset
    of local time at a time value, and the offset to take off a local time to
    get the time value.  The methods of [JSDate] are written on local times;
    the ones below take a time value to local time, act there and go back,
    as the specification words each of them.  date-fns and the component
    are composed from these methods the way they are composed above. *)
Module Zoned.

Record Zone := {
  offsetAt : Z -> Z;        (* LocalTZA(t, true) *)
  offsetOfLocal : Z -> Z    (* LocalTZA(t, false) *)
}.

Definition LocalTime (z : Zone) (t : Z) : Z := t + offsetAt z t.

Definition UTC (z : Zone) (t : Z) : Z := t - offsetOfLocal z t.

(** A zone that keeps one offset: no daylight saving, and no change of its
    standard time. *)
Definition fixedOffset (z : Zone) (offset : Z) : Prop :=
  forall t, offsetAt z t = offset /\ offsetOfLocal z t = offset.

Definition fixedZone (offset : Z) : Zone :=
  {| offsetAt := fun _ => offset; offsetOfLocal := fun _ => offset |}.

(** New South Wales between April 2025 and April 2026: on 5 October 2025
    at 02:00 local time, which is 2025-10-04T16:00Z, the clocks go from ten
    to eleven hours ahead of UTC; the local times from 02:00 to 03:00 of
    that day do not exist and are read with the offset of before. *)
Definition sydney : Zone :=
  {| offsetAt := fun t =>
       if ymd_hms 2025 10 4 16 0 0 <=? t then 39600000 else 36000000;
     offsetOfLocal := fun t =>
       if ymd_hms 2025 10 5 3 0 0 <=? t then 39600000 else 36000000 |}.

(** *** [Date.prototype] *)

Definition getFullYear (z : Zone) (t : Z) : Z := JSDate.getFullYear (LocalTime z t).

Definition getMonth (z : Zone) (t : Z) : Z := JSDate.getMonth (LocalTime z t).

Definition getDate (z : Zone) (t : Z) : Z := JSDate.getDate (LocalTime z t).

Definition setDate (z : Zone) (t dt : Z) : Z :=
  UTC z (JSDate.setDate (LocalTime z t) dt).

Definition setMonth (z : Zone) (t month dt : Z) : Z :=
  UTC z (JSDate.setMonth (LocalTime z t) month dt).

Definition setFullYear (z : Zone) (t year month dt : Z) : Z :=
  UTC z (JSDate.setFullYear (LocalTime z t) year month dt).

Definition setHours (z : Zone) (t hour min sec ms : Z) : Z :=
  UTC z (MakeDate (Day (LocalTime z t)) (MakeTime hour min sec ms)).

(** *** date-fns *)

Definition addDays (z : Zone) (date amount : Z) : Z :=
  if amount =? 0 then date
  else setDate z date (getDate z date + amount).

Definition addWeeks (z : Zone) (date amount : Z) : Z := addDays z date (amount * 7).

Definition addMonths (z : Zone) (date amount : Z) : Z :=
  if amount =? 0 then date
  else
    let dayOfMonth := getDate z date in
    let endOfDesiredMonth := setMonth z date (getMonth z date + amount + 1) 0 in
    let daysInMonth := getDate z endOfDesiredMonth in
    if dayOfMonth >=? daysInMonth then endOfDesiredMonth
    else setFullYear z date (getFullYear z endOfDesiredMonth)
                     (getMonth z endOfDesiredMonth) dayOfMonth.

Definition startOfMonth (z : Zone) (date : Z) : Z :=
  setHours z (setDate z date 1) 0 0 0 0.

Definition endOfMonth (z : Zone) (date : Z) : Z :=
  let month := getMonth z date in
  setHours z (setFullYear z date (getFullYear z date) (month + 1) 0) 23 59 59 999.

Fixpoint eachDayLoop (z : Zone) (fuel : nat) (current endTime : Z)
    (dates : list Z) : option (list Z) :=
  if current <=? endTime then
    match fuel with
    | O => None
    | S fuel' =>
        eachDayLoop z fuel'
          (setHours z (setDate z current (getDate z current + 1)) 0 0 0 0)
          endTime (dates ++ [current])
    end
  else Some dates.

Definition eachDayOfInterval (z : Zone) (fuel : nat) (start end_ : Z)
    : option (list Z) :=
  if start <=? end_ then eachDayLoop z fuel (setHours z start 0 0 0 0) end_ []
  else None.

(** [format] prints the fields of local time. *)
Definition format (z : Zone) (date : Z) : string := format (LocalTime z date).

(** *** The component *)

Definition daysInMonth (z : Zone) (current : Z) : option (list Z) :=
  eachDayOfInterval z 31 (startOfMonth z current) (endOfMonth z current).

Definition occurrenceAt (z : Zone) (order : Order) (current : Z) : Occurrence :=
  {| occurrence_order := with_delivery_date order (format z current);
     isRecurringInstance := true;
     originalOrderId := id order |}.

Definition nextOccurrence (z : Zone) (frequency_type : string)
    (frequency_value : Z) (current : Z) : option Z :=
  if (frequency_type =? "daily")%string then Some (addDays z current frequency_value)
  else if (frequency_type =? "weekly")%string then Some (addWeeks z current frequency_value)
  else if (frequency_type =? "monthly")%string then Some (addMonths z current frequency_value)
  else None.

Fixpoint occurrenceLoop (z : Zone) (fuel : nat) (frequency_type : string)
    (frequency_value startDate sixMonthsFromNow : Z) (st : LoopState)
    : option LoopState :=
  if (currentDate st <=? sixMonthsFromNow) && (iteration st <? maxIterations)
  then
    match fuel with
    | O => None
    | S fuel' =>
        let pushed :=
          if startDate <? currentDate st
          then occurrences st ++ [currentDate st]
          else occurrences st in
        match nextOccurrence z frequency_type frequency_value (currentDate st) with
        | None =>
            Some {| currentDate := currentDate st;
                    iteration := iteration st;
                    occurrences := pushed |}
        | Some next =>
            occurrenceLoop z fuel' frequency_type frequency_value startDate
              sixMonthsFromNow
              {| currentDate := next;
                 iteration := iteration st + 1;
                 occurrences := pushed |}
        end
    end
  else Some st.

Definition projectionLoop (z : Zone) (now : Z) (pattern : RecurrencePattern)
    (startDate : Z) : option LoopState :=
  occurrenceLoop z (Z.to_nat maxIterations) (frequency_type pattern)
    (frequencyValueOf pattern) startDate (addMonths z now 6)
    {| currentDate := startDate; iteration := 0; occurrences := [] |}.

Section Projection.

Variable z : Zone.

(** date-fns [parseISO], giving a time value. *)
Variable parseISO : string -> option Z.

Definition occurrenceDates (now : Z) (order : Order) : option (list Z) :=
  match projectable order with
  | None => Some []
  | Some (pattern, d) =>
      match parseISO d with
      | None => Some []
      | Some startDate =>
          option_map occurrences (projectionLoop z now pattern startDate)
      end
  end.

Definition generateRecurringOccurrences (now : Z) (order : Order)
    : option (list Occurrence) :=
  option_map (map (occurrenceAt z order)) (occurrenceDates now order).

End Projection.

(** [parseISO] of a string without a zone: the local time it writes, taken
    to its time value. *)
Definition parseLocal (z : Zone) (s : string) : option Z :=
  option_map (UTC z) (parseCalendarDate s).

End Zoned.

(** What [parseISO] reads, as a local time in a zone with a fixed
    offset. *)
Definition parsedLocal (offset : Z) (parseISO : string -> option Z)
    (s : string) : option Z :=
  option_map (fun t => t + offset) (parseISO s).

(** A loop state with its dates moved by [c]. *)
Definition shifted (c : Z) (st : LoopState) : LoopState :=
  {| currentDate := currentDate st + c;
     iteration := iteration st;
     occurrences := map (fun t => t + c) (occurrences st) |}.

(** * Properties *)

Ltac Zify.zify_post_hook ::= Z.div_mod_to_equations.

(** ** The calendar *)


Lemma DayFromYear_succ (y : Z) :
  DayFromYear (y + 1) = DayFromYear y + DaysInYear y.
Proof.
  unfold DayFromYear, DaysInYear, InLeapYear.
  destruct (y mod 4 =? 0) eqn:E4, (y mod 100 =? 0) eqn:E100,
    (y mod 400 =? 0) eqn:E400; cbn [andb orb negb]; lia.
Qed.

Lemma YearFromDay_spec (d : Z) :
  DayFromYear (YearFromDay d) <= d < DayFromYear (YearFromDay d + 1).
Proof.
  unfold YearFromDay.
  set (y0 := 1970 + 400 * d / 146097).
  destruct (DayFromYear (y0 + 1) <=? d) eqn:E1.
  - unfold DayFromYear in *. subst y0. lia.
  - destruct (DayFromYear y0 <=? d) eqn:E2.
    + lia.
    + replace (y0 - 1 + 1) with y0 by lia.
      split; [ | lia ].
      unfold DayFromYear in *. subst y0. lia.
Qed.

Lemma msPerDay_pos : 0 < msPerDay.
Proof. reflexivity. Qed.

Lemma time_value_split (t : Z) : t = MakeDate (Day t) (TimeWithinDay t).
Proof.
  unfold MakeDate, Day, TimeWithinDay.
  pose proof (Z.div_mod t msPerDay). pose proof msPerDay_pos. lia.
Qed.

Lemma TimeWithinDay_range (t : Z) : 0 <= TimeWithinDay t < msPerDay.
Proof. unfold TimeWithinDay. apply Z.mod_pos_bound. exact msPerDay_pos. Qed.

Lemma Day_MakeDate (d tod : Z) :
  0 <= tod < msPerDay -> Day (MakeDate d tod) = d.
Proof.
  intros H. unfold Day, MakeDate.
  rewrite Z.add_comm, Z.div_add by (unfold msPerDay; lia).
  rewrite Z.div_small by exact H. reflexivity.
Qed.

Lemma MakeDate_lt (d1 d2 tod : Z) :
  d1 < d2 -> MakeDate d1 tod < MakeDate d2 tod.
Proof. unfold MakeDate, msPerDay. lia. Qed.

Lemma DayWithinYear_range (d : Z) :
  0 <= DayWithinYear d < DaysInYear (YearFromDay d).
Proof.
  unfold DayWithinYear.
  pose proof (YearFromDay_spec d) as H.
  rewrite DayFromYear_succ in H. lia.
Qed.

Ltac month_cases :=
  repeat match goal with
         | |- context [if ?a <? ?b then _ else _] =>
             let E := fresh "E" in
             destruct (Z.ltb_spec a b) as [E | E]
         end.

Lemma MonthFromDay_range (d : Z) : 0 <= MonthFromDay d <= 11.
Proof. unfold MonthFromDay. month_cases; lia. Qed.

(** Reading the calendar fields of a day and building the day from them
    gives the day back. *)
Lemma MakeDay_fields (d : Z) :
  MakeDay (YearFromDay d) (MonthFromDay d) (DateFromDay d) = d.
Proof.
  pose proof (MonthFromDay_range d) as Hm.
  unfold MakeDay.
  replace (MonthFromDay d / 12) with 0 by lia.
  replace (MonthFromDay d mod 12) with (MonthFromDay d) by lia.
  rewrite Z.add_0_r. unfold DateFromDay, DayWithinYear. lia.
Qed.

Lemma MakeDay_date (y m d1 d2 : Z) :
  MakeDay y m d2 = MakeDay y m d1 + (d2 - d1).
Proof. unfold MakeDay. lia. Qed.

Lemma DateFromDay_pos (d : Z) : 1 <= DateFromDay d.
Proof.
  pose proof (DayWithinYear_range d) as H.
  unfold DateFromDay, MonthFromDay.
  destruct (InLeapYear (YearFromDay d)); cbn [monthStart];
    month_cases; cbn [monthStart]; lia.
Qed.

(** [setDate] moves by whole days. *)
Lemma addDays_value (t n : Z) : addDays t n = t + n * msPerDay.
Proof.
  unfold addDays. destruct (Z.eqb_spec n 0) as [-> | _]; [lia | ].
  unfold setDate, getFullYear, getMonth, getDate.
  rewrite (MakeDay_date _ _ (DateFromDay (Day t))), MakeDay_fields.
  pose proof (time_value_split t) as Ht.
  unfold MakeDate, msPerDay in *. lia.
Qed.

Lemma addWeeks_value (t n : Z) : addWeeks t n = t + n * 7 * msPerDay.
Proof. unfold addWeeks. apply addDays_value. Qed.

Lemma MakeDay_firstOfMonth (y m d : Z) :
  MakeDay y m d = firstOfMonth (12 * y + m) + d - 1.
Proof.
  unfold firstOfMonth, MakeDay.
  replace (0 + (12 * y + m) / 12) with (y + m / 12) by lia.
  replace ((12 * y + m) mod 12) with (m mod 12) by lia.
  lia.
Qed.

Lemma firstOfMonth_next (k : Z) : firstOfMonth k + 28 <= firstOfMonth (k + 1).
Proof.
  unfold firstOfMonth, MakeDay.
  assert (Hr : 0 <= k mod 12 < 12) by (apply Z.mod_pos_bound; lia).
  destruct (Z.eq_dec (k mod 12) 11) as [E | E].
  - replace (0 + (k + 1) / 12) with (0 + k / 12 + 1) by lia.
    replace ((k + 1) mod 12) with 0 by lia.
    rewrite E, DayFromYear_succ. unfold DaysInYear.
    destruct (InLeapYear (0 + k / 12)), (InLeapYear (0 + k / 12 + 1));
      cbn [monthStart]; lia.
  - replace (0 + (k + 1) / 12) with (0 + k / 12) by lia.
    replace ((k + 1) mod 12) with (k mod 12 + 1) by lia.
    assert (Hc : k mod 12 = 0 \/ k mod 12 = 1 \/ k mod 12 = 2 \/ k mod 12 = 3
                 \/ k mod 12 = 4 \/ k mod 12 = 5 \/ k mod 12 = 6
                 \/ k mod 12 = 7 \/ k mod 12 = 8 \/ k mod 12 = 9
                 \/ k mod 12 = 10) by lia.
    destruct (InLeapYear (0 + k / 12));
      repeat (destruct Hc as [Hc | Hc]; [rewrite Hc; cbn [monthStart Z.add Pos.add Pos.succ]; lia | ]);
      rewrite Hc; cbn [monthStart Z.add Pos.add Pos.succ]; lia.
Qed.

Lemma firstOfMonth_lt (k1 k2 : Z) :
  k1 < k2 -> firstOfMonth k1 + 28 <= firstOfMonth k2.
Proof.
  intros H.
  replace k2 with (k1 + 1 + Z.of_nat (Z.to_nat (k2 - k1 - 1))) by lia.
  induction (Z.to_nat (k2 - k1 - 1)) as [ | n IH].
  - rewrite Z.add_0_r. apply firstOfMonth_next.
  - pose proof (firstOfMonth_next (k1 + 1 + Z.of_nat n)) as Hn.
    replace (k1 + 1 + Z.of_nat (S n)) with (k1 + 1 + Z.of_nat n + 1) by lia.
    lia.
Qed.

Lemma firstOfMonth_le (k1 k2 : Z) :
  k1 <= k2 -> firstOfMonth k1 <= firstOfMonth k2.
Proof.
  intros H. destruct (Z.eq_dec k1 k2) as [-> | Hne]; [lia | ].
  pose proof (firstOfMonth_lt k1 k2). lia.
Qed.

Lemma day_from_month_start (d : Z) :
  d = firstOfMonth (monthIndex d) + DateFromDay d - 1.
Proof.
  unfold monthIndex. rewrite <- MakeDay_firstOfMonth. symmetry. apply MakeDay_fields.
Qed.

Lemma day_before_next_month (d : Z) : d < firstOfMonth (monthIndex d + 1).
Proof.
  pose proof (DayWithinYear_range d) as Hr.
  pose proof (MonthFromDay_range d) as Hm.
  unfold monthIndex.
  replace (12 * YearFromDay d + MonthFromDay d + 1)
    with (12 * YearFromDay d + (MonthFromDay d + 1)) by lia.
  pose proof (MakeDay_firstOfMonth (YearFromDay d) (MonthFromDay d + 1) 1) as Hf.
  enough (d < MakeDay (YearFromDay d) (MonthFromDay d + 1) 1) by lia.
  clear Hf. unfold MakeDay.
  destruct (Z.eq_dec (MonthFromDay d) 11) as [E | E].
  - rewrite E. change ((11 + 1) / 12) with 1. change ((11 + 1) mod 12) with 0.
    rewrite DayFromYear_succ. cbn [monthStart].
    unfold DayWithinYear in Hr. lia.
  - replace ((MonthFromDay d + 1) / 12) with 0 by lia.
    replace ((MonthFromDay d + 1) mod 12) with (MonthFromDay d + 1) by lia.
    rewrite Z.add_0_r.
    revert E Hr. unfold DaysInYear, MonthFromDay, DayWithinYear.
    destruct (InLeapYear (YearFromDay d)); cbn [monthStart];
      month_cases; cbn [monthStart Z.add Pos.add Pos.succ]; lia.
Qed.

(** The day [addMonths] lands on lies in the month [amount] months away,
    so a negative amount moves back and a positive one forward. *)
Lemma addMonths_day (t n : Z) :
  n <> 0 ->
  exists day,
    addMonths t n = MakeDate day (TimeWithinDay t) /\
    firstOfMonth (monthIndex (Day t) + n) <= day
      < firstOfMonth (monthIndex (Day t) + n + 1).
Proof.
  intros Hn.
  pose proof (TimeWithinDay_range t) as Htod.
  unfold addMonths. destruct (Z.eqb_spec n 0) as [ | _]; [contradiction | ].
  cbv zeta. unfold setMonth, setFullYear, getFullYear, getMonth, getDate.
  rewrite Day_MakeDate by exact Htod.
  set (e := MakeDay (YearFromDay (Day t)) (MonthFromDay (Day t) + n + 1) 0).
  assert (He : e = firstOfMonth (monthIndex (Day t) + n + 1) - 1).
  { subst e. rewrite MakeDay_firstOfMonth. unfold monthIndex.
    replace (12 * YearFromDay (Day t) + (MonthFromDay (Day t) + n + 1))
      with (12 * YearFromDay (Day t) + MonthFromDay (Day t) + n + 1) by lia.
    lia. }
  pose proof (day_from_month_start e) as Hs.
  pose proof (day_before_next_month e) as Hb.
  pose proof (DateFromDay_pos e) as Hp.
  pose proof (DateFromDay_pos (Day t)) as Hpt.
  assert (Hk : monthIndex e = monthIndex (Day t) + n).
  { destruct (Z.lt_trichotomy (monthIndex e) (monthIndex (Day t) + n))
      as [Hlt | [Heq | Hgt]]; [ | exact Heq | ].
    - pose proof (firstOfMonth_lt (monthIndex e + 1) (monthIndex (Day t) + n + 1)).
      lia.
    - pose proof (firstOfMonth_le (monthIndex (Day t) + n + 1) (monthIndex e)).
      lia. }
  destruct (DateFromDay (Day t) >=? DateFromDay e) eqn:Hcmp.
  - exists e. split; [reflexivity | ].
    rewrite <- Hk. lia.
  - exists (MakeDay (YearFromDay e) (MonthFromDay e) (DateFromDay (Day t))).
    split; [reflexivity | ].
    rewrite (MakeDay_date _ _ (DateFromDay e)), MakeDay_fields.
    rewrite <- Hk. lia.
Qed.

Lemma addMonths_back (t n : Z) : n < 0 -> addMonths t n < t.
Proof.
  intros Hn.
  destruct (addMonths_day t n) as [day [-> [_ Hd]]]; [lia | ].
  rewrite (time_value_split t) at 2. apply MakeDate_lt.
  pose proof (day_from_month_start (Day t)).
  pose proof (DateFromDay_pos (Day t)).
  pose proof (firstOfMonth_le (monthIndex (Day t) + n + 1) (monthIndex (Day t))).
  lia.
Qed.

Lemma addMonths_forward (t n : Z) : 0 < n -> t < addMonths t n.
Proof.
  intros Hn.
  destruct (addMonths_day t n) as [day [-> [Hd _]]]; [lia | ].
  rewrite (time_value_split t) at 1. apply MakeDate_lt.
  pose proof (day_before_next_month (Day t)).
  pose proof (firstOfMonth_le (monthIndex (Day t) + 1) (monthIndex (Day t) + n)).
  lia.
Qed.

(** Each step of the loop moves the date the way the sign of the interval
    points. *)
Lemma nextOccurrence_still (ft : string) (t next : Z) :
  nextOccurrence ft 0 t = Some next -> next = t.
Proof.
  unfold nextOccurrence, addWeeks, addDays, addMonths. cbn [Z.mul Z.eqb].
  destruct (ft =? "daily")%string; [congruence | ].
  destruct (ft =? "weekly")%string; [congruence | ].
  destruct (ft =? "monthly")%string; congruence.
Qed.

Lemma nextOccurrence_back (ft : string) (v t next : Z) :
  v <= 0 -> nextOccurrence ft v t = Some next -> next <= t.
Proof.
  intros Hv. unfold nextOccurrence.
  pose proof (addDays_value t v). pose proof (addWeeks_value t v).
  assert (addMonths t v <= t).
  { destruct (Z.eq_dec v 0) as [-> | ]; [unfold addMonths; cbn; lia | ].
    pose proof (addMonths_back t v). lia. }
  unfold msPerDay in *.
  repeat match goal with
         | |- context [if String.eqb ?a ?b then _ else _] => destruct (String.eqb a b)
         end; intros [= <-]; lia.
Qed.

Lemma nextOccurrence_forward (ft : string) (v t next : Z) :
  0 < v -> nextOccurrence ft v t = Some next -> t < next.
Proof.
  intros Hv. unfold nextOccurrence.
  pose proof (addDays_value t v). pose proof (addWeeks_value t v).
  pose proof (addMonths_forward t v Hv).
  unfold msPerDay in *.
  repeat match goal with
         | |- context [if String.eqb ?a ?b then _ else _] => destruct (String.eqb a b)
         end; intros [= <-]; lia.
Qed.

Lemma nextOccurrence_recognized (ft : string) (v t : Z) :
  recognized ft = true -> exists next, nextOccurrence ft v t = Some next.
Proof.
  unfold recognized, nextOccurrence.
  destruct (ft =? "daily")%string; [eauto | ].
  destruct (ft =? "weekly")%string; [eauto | ].
  destruct (ft =? "monthly")%string; [eauto | discriminate].
Qed.

Lemma nextOccurrence_unrecognized (ft : string) (v t : Z) :
  recognized ft = false -> nextOccurrence ft v t = None.
Proof.
  unfold recognized, nextOccurrence.
  destruct (ft =? "daily")%string; [discriminate | ].
  destruct (ft =? "weekly")%string; [discriminate | ].
  destruct (ft =? "monthly")%string; [discriminate | reflexivity].
Qed.

(** ** The loop *)

Section Loop.

Variables (ft : string) (fv startDate horizon : Z).

(** The loop leaves before its passes run out whenever as many are allowed
    as the bound on [iteration] leaves open. *)
Lemma occurrenceLoop_returns (fuel : nat) (st : LoopState) :
  maxIterations - iteration st <= Z.of_nat fuel ->
  exists st', occurrenceLoop fuel ft fv startDate horizon st = Some st'.
Proof.
  revert st. induction fuel as [ | fuel IH]; intros st Hf; cbn [occurrenceLoop].
  - destruct (Z.ltb_spec (iteration st) maxIterations) as [Hi | Hi];
      [lia | rewrite andb_false_r; eauto].
  - destruct ((currentDate st <=? horizon) && (iteration st <? maxIterations));
      [ | eauto].
    destruct (nextOccurrence ft fv (currentDate st)); [ | eauto].
    apply IH. cbn [iteration]. lia.
Qed.

(** What a run pushes: dates after the start and up to the horizon, at most
    one per pass left; the counter never passes the bound. *)
Lemma occurrenceLoop_pushes (fuel : nat) (st st' : LoopState) :
  occurrenceLoop fuel ft fv startDate horizon st = Some st' ->
  exists pushed,
    occurrences st' = occurrences st ++ pushed /\
    Forall (fun d => startDate < d <= horizon) pushed /\
    Z.of_nat (List.length pushed) <= Z.max 0 (maxIterations - iteration st) /\
    iteration st <= iteration st' <= Z.max (iteration st) maxIterations.
Proof.
  revert st. induction fuel as [ | fuel IH]; intros st; cbn [occurrenceLoop].
  - destruct ((currentDate st <=? horizon) && (iteration st <? maxIterations));
      [discriminate | ].
    intros [= <-]. exists []. rewrite app_nil_r. cbn. repeat split; auto; lia.
  - destruct (Z.leb_spec (currentDate st) horizon) as [Hc | Hc];
      destruct (Z.ltb_spec (iteration st) maxIterations) as [Hi | Hi];
      cbn [andb];
      try (intros [= <-]; exists []; rewrite app_nil_r; cbn;
           repeat split; auto; lia).
    set (now_pushed := if startDate <? currentDate st then [currentDate st] else []).
    assert (Hp : (if startDate <? currentDate st
                  then occurrences st ++ [currentDate st]
                  else occurrences st) = occurrences st ++ now_pushed).
    { subst now_pushed. destruct (startDate <? currentDate st);
        [reflexivity | now rewrite app_nil_r]. }
    assert (Hall : Forall (fun d => startDate < d <= horizon) now_pushed).
    { subst now_pushed. destruct (Z.ltb_spec startDate (currentDate st));
        [constructor; [lia | constructor] | constructor]. }
    assert (Hlen : Z.of_nat (List.length now_pushed) <= 1).
    { subst now_pushed. destruct (startDate <? currentDate st); cbn; lia. }
    rewrite Hp. clearbody now_pushed. clear Hp.
    destruct (nextOccurrence ft fv (currentDate st)) as [next | ].
    + intros Hrun. apply IH in Hrun. cbn [occurrences iteration] in Hrun.
      destruct Hrun as (pushed & Ho & Ha & Hl & Hit).
      exists (now_pushed ++ pushed). rewrite app_assoc, length_app.
      repeat split; [exact Ho | apply Forall_app; auto | lia | lia | lia].
    + intros [= <-]. cbn [occurrences iteration].
      exists now_pushed. repeat split; auto; lia.
Qed.

(** With an interval of zero or less the date never passes the start, so
    nothing is pushed. *)
Lemma occurrenceLoop_never_past_start (fuel : nat) (st st' : LoopState) :
  fv <= 0 ->
  currentDate st <= startDate ->
  occurrenceLoop fuel ft fv startDate horizon st = Some st' ->
  occurrences st' = occurrences st /\ currentDate st' <= startDate.
Proof.
  intros Hv. revert st. induction fuel as [ | fuel IH]; intros st Hc;
    cbn [occurrenceLoop];
    destruct ((currentDate st <=? horizon) && (iteration st <? maxIterations));
    try discriminate; try (intros [= <-]; auto).
  destruct (Z.ltb_spec startDate (currentDate st)) as [ | _]; [lia | ].
  destruct (nextOccurrence ft fv (currentDate st)) as [next | ] eqn:Hn.
  - intros Hrun. apply nextOccurrence_back in Hn; [ | exact Hv].
    apply IH in Hrun; cbn [currentDate occurrences] in *; [exact Hrun | lia].
  - intros [= <-]. cbn. auto.
Qed.

(** With a recognized type on top, and a start that is not after the
    horizon, only the bound on [iteration] ends the loop. *)
Lemma occurrenceLoop_runs_to_bound (fuel : nat) (st st' : LoopState) :
  fv <= 0 ->
  recognized ft = true ->
  startDate <= horizon ->
  currentDate st <= startDate ->
  iteration st <= maxIterations ->
  occurrenceLoop fuel ft fv startDate horizon st = Some st' ->
  iteration st' = maxIterations.
Proof.
  intros Hv Hrec Hh. revert st. induction fuel as [ | fuel IH]; intros st Hc Hi;
    cbn [occurrenceLoop];
    destruct (Z.leb_spec (currentDate st) horizon) as [Hle | Hgt];
    try lia;
    destruct (Z.ltb_spec (iteration st) maxIterations) as [Hlt | Hge];
    cbn [andb]; try discriminate; try (intros [= <-]; lia).
  destruct (nextOccurrence_recognized ft fv (currentDate st) Hrec) as [next Hn].
  rewrite Hn. apply nextOccurrence_back in Hn; [ | exact Hv].
  intros Hrun. apply IH in Hrun; cbn [currentDate iteration] in *; [exact Hrun | lia | lia].
Qed.

(** With an interval of zero the date stays where it is. *)
Lemma occurrenceLoop_stays (fuel : nat) (st st' : LoopState) :
  fv = 0 ->
  occurrenceLoop fuel ft fv startDate horizon st = Some st' ->
  currentDate st' = currentDate st.
Proof.
  intros Hv. revert st. induction fuel as [ | fuel IH]; intros st;
    cbn [occurrenceLoop];
    destruct ((currentDate st <=? horizon) && (iteration st <? maxIterations));
    try discriminate; try (intros [= <-]; reflexivity).
  destruct (nextOccurrence ft fv (currentDate st)) as [next | ] eqn:Hn.
  - rewrite Hv in Hn. apply nextOccurrence_still in Hn. subst next.
    intros Hrun. apply IH in Hrun. exact Hrun.
  - intros [= <-]. reflexivity.
Qed.

(** With a recognized type, a date within the horizon and the counter
    below its bound, a pass is made and the counter moves. *)
Lemma occurrenceLoop_enters (fuel : nat) (st st' : LoopState) :
  recognized ft = true ->
  currentDate st <= horizon ->
  iteration st < maxIterations ->
  occurrenceLoop fuel ft fv startDate horizon st = Some st' ->
  iteration st + 1 <= iteration st'.
Proof.
  intros Hrec Hc Hi. destruct fuel as [ | fuel]; cbn [occurrenceLoop];
    destruct (Z.leb_spec (currentDate st) horizon); try lia;
    destruct (Z.ltb_spec (iteration st) maxIterations); try lia;
    cbn [andb]; [discriminate | ].
  destruct (nextOccurrence_recognized ft fv (currentDate st) Hrec) as [next Hn].
  rewrite Hn. intros Hrun. apply occurrenceLoop_pushes in Hrun.
  destruct Hrun as (_ & _ & _ & _ & Hit). cbn [iteration] in Hit. lia.
Qed.

(** An unrecognized type breaks out of the first pass. *)
Lemma occurrenceLoop_breaks (fuel : nat) (st st' : LoopState) :
  recognized ft = false ->
  currentDate st <= startDate ->
  occurrenceLoop fuel ft fv startDate horizon st = Some st' ->
  st' = st.
Proof.
  intros Hrec Hc. destruct fuel as [ | fuel]; cbn [occurrenceLoop];
    destruct ((currentDate st <=? horizon) && (iteration st <? maxIterations));
    try discriminate; try (intros [= <-]; reflexivity).
  rewrite nextOccurrence_unrecognized by exact Hrec.
  destruct (Z.ltb_spec startDate (currentDate st)) as [ | _]; [lia | ].
  intros [= <-]. destruct st; reflexivity.
Qed.

(** With a positive interval the pushed dates come in increasing order. *)
Lemma sorted_snoc (l : list Z) (c : Z) :
  StronglySorted Z.lt l -> Forall (fun d => d < c) l ->
  StronglySorted Z.lt (l ++ [c]).
Proof.
  induction 1 as [ | a l Hs IH Ha]; intros Hc; cbn.
  - repeat constructor.
  - inversion Hc; subst. constructor; [auto | ].
    apply Forall_app. split; [exact Ha | constructor; [assumption | constructor]].
Qed.

Lemma occurrenceLoop_increasing (fuel : nat) (st st' : LoopState) :
  0 < fv ->
  StronglySorted Z.lt (occurrences st) ->
  Forall (fun d => d < currentDate st) (occurrences st) ->
  occurrenceLoop fuel ft fv startDate horizon st = Some st' ->
  StronglySorted Z.lt (occurrences st').
Proof.
  intros Hv. revert st. induction fuel as [ | fuel IH]; intros st Hs Hb;
    cbn [occurrenceLoop];
    destruct ((currentDate st <=? horizon) && (iteration st <? maxIterations));
    try discriminate; try (intros [= <-]; exact Hs).
  assert (Hs' : StronglySorted Z.lt
                  (if startDate <? currentDate st
                   then occurrences st ++ [currentDate st]
                   else occurrences st)).
  { destruct (startDate <? currentDate st); [apply sorted_snoc | ]; assumption. }
  destruct (nextOccurrence ft fv (currentDate st)) as [next | ] eqn:Hn.
  - apply nextOccurrence_forward in Hn; [ | exact Hv].
    apply IH; cbn [occurrences currentDate]; [exact Hs' | ].
    assert (Hb' : Forall (fun d => d < next) (occurrences st)).
    { eapply Forall_impl; [ | exact Hb]. cbn. intros; lia. }
    destruct (startDate <? currentDate st); [ | exact Hb'].
    apply Forall_app. split; [exact Hb' | constructor; [lia | constructor]].
  - intros [= <-]. exact Hs'.
Qed.

End Loop.

(** ** generateRecurringOccurrences *)

Lemma projectable_fields (order : Order) (pattern : RecurrencePattern) (d : string) :
  projectable order = Some (pattern, d) ->
  is_recurring order = true /\ recurrence_pattern order = Some pattern /\
  delivery_date order = Some d /\ status order <> "cancelled".
Proof.
  unfold projectable.
  destruct (is_recurring order); cbn [negb]; [ | discriminate].
  destruct (recurrence_pattern order) as [p | ]; [ | discriminate].
  destruct (delivery_date order) as [s | ]; [ | discriminate].
  destruct (s =? "")%string; cbn [orb]; [discriminate | ].
  destruct (String.eqb_spec (status order) "cancelled") as [ | Hs]; [discriminate | ].
  intros [= <- <-]. auto.
Qed.

Lemma projectionLoop_returns (now : Z) (pattern : RecurrencePattern) (startDate : Z) :
  exists st, projectionLoop now pattern startDate = Some st.
Proof.
  unfold projectionLoop. apply occurrenceLoop_returns.
  cbn [iteration]. rewrite Z2Nat.id by (unfold maxIterations; lia). lia.
Qed.

Lemma projectionLoop_pushes (now : Z) (pattern : RecurrencePattern)
    (startDate : Z) (st : LoopState) :
  projectionLoop now pattern startDate = Some st ->
  Forall (fun d => startDate < d <= addMonths now 6) (occurrences st) /\
  (List.length (occurrences st) <= 200)%nat /\
  0 <= iteration st <= maxIterations.
Proof.
  unfold projectionLoop. intros Hloop.
  apply occurrenceLoop_pushes in Hloop.
  destruct Hloop as (pushed & Ho & Ha & Hl & Hi).
  rewrite Ho. unfold maxIterations in *. cbn [occurrences iteration app] in *.
  repeat split; [exact Ha | lia | lia | lia].
Qed.

Lemma projectionLoop_never_past_start (now : Z) (pattern : RecurrencePattern)
    (startDate : Z) (st : LoopState) :
  frequencyValueOf pattern <= 0 ->
  projectionLoop now pattern startDate = Some st ->
  occurrences st = [] /\ currentDate st <= startDate.
Proof.
  unfold projectionLoop. intros Hv Hloop.
  apply occurrenceLoop_never_past_start in Hloop;
    [exact Hloop | exact Hv | cbn [currentDate]; lia].
Qed.

Lemma projectionLoop_runs_to_bound (now : Z) (pattern : RecurrencePattern)
    (startDate : Z) (st : LoopState) :
  frequencyValueOf pattern <= 0 ->
  recognized (frequency_type pattern) = true ->
  startDate <= addMonths now 6 ->
  projectionLoop now pattern startDate = Some st ->
  iteration st = maxIterations.
Proof.
  unfold projectionLoop. intros Hv Hrec Hh Hloop.
  apply occurrenceLoop_runs_to_bound in Hloop;
    [exact Hloop | exact Hv | exact Hrec | exact Hh | cbn [currentDate]; lia
     | cbn [iteration]; unfold maxIterations; lia].
Qed.

Lemma projectionLoop_enters (now : Z) (pattern : RecurrencePattern)
    (startDate : Z) (st : LoopState) :
  recognized (frequency_type pattern) = true ->
  startDate <= addMonths now 6 ->
  projectionLoop now pattern startDate = Some st ->
  1 <= iteration st.
Proof.
  unfold projectionLoop. intros Hrec Hh Hloop.
  apply occurrenceLoop_enters in Hloop;
    [cbn [iteration] in Hloop; lia | exact Hrec | exact Hh
     | cbn [iteration]; unfold maxIterations; lia].
Qed.

Lemma projectionLoop_stays (now : Z) (pattern : RecurrencePattern)
    (startDate : Z) (st : LoopState) :
  frequencyValueOf pattern = 0 ->
  projectionLoop now pattern startDate = Some st ->
  currentDate st = startDate.
Proof.
  unfold projectionLoop. intros Hv Hloop.
  apply occurrenceLoop_stays in Hloop; [exact Hloop | exact Hv].
Qed.

Lemma projectionLoop_breaks (now : Z) (pattern : RecurrencePattern)
    (startDate : Z) (st : LoopState) :
  recognized (frequency_type pattern) = false ->
  projectionLoop now pattern startDate = Some st ->
  iteration st = 0 /\ occurrences st = [].
Proof.
  unfold projectionLoop. intros Hrec Hloop.
  apply occurrenceLoop_breaks in Hloop;
    [subst st; split; reflexivity | exact Hrec | cbn [currentDate]; lia].
Qed.

Lemma projectionLoop_increasing (now : Z) (pattern : RecurrencePattern)
    (startDate : Z) (st : LoopState) :
  1 <= frequencyValueOf pattern ->
  projectionLoop now pattern startDate = Some st ->
  StronglySorted Z.lt (occurrences st).
Proof.
  unfold projectionLoop. intros Hv Hloop.
  apply occurrenceLoop_increasing in Hloop;
    [exact Hloop | lia | constructor | constructor].
Qed.

Section Claims.

Variable parseISO : string -> option Z.

(** A call either never reaches the loop and returns the empty list, or
    runs the loop from a parsed start date. *)
Lemma projection_cases (now : Z) (order : Order) :
  (projectionRun parseISO now order = None /\
   occurrenceDates parseISO now order = Some []) \/
  (exists pattern d startDate st,
     projectable order = Some (pattern, d) /\
     parseISO d = Some startDate /\
     projectionLoop now pattern startDate = Some st /\
     projectionRun parseISO now order = Some st /\
     occurrenceDates parseISO now order = Some (occurrences st)).
Proof.
  unfold projectionRun, occurrenceDates.
  destruct (projectable order) as [[pattern d] | ] eqn:Hp; [ | auto].
  destruct (parseISO d) as [startDate | ] eqn:Hparse; [ | auto].
  destruct (projectionLoop_returns now pattern startDate) as [st Hst].
  right. exists pattern, d, startDate, st. rewrite Hst. cbn.
  repeat split; auto.
Qed.


(** C3. The weekly order delivered on 2025-01-01, projected up to the
    horizon 2025-01-31, has exactly the four occurrences of 8, 15, 22 and 29
    January. *)
Theorem weekly_january_projection (now : Z) (order : Order) :
  parseISO "2025-01-01" = Some (ymd 2025 1 1) ->
  addMonths now 6 = ymd 2025 1 31 ->
  is_recurring order = true ->
  status order <> "cancelled" ->
  delivery_date order = Some "2025-01-01" ->
  recurrence_pattern order
    = Some {| frequency_type := "weekly"; frequency_value := Some 1 |} ->
  occurrenceDates parseISO now order
    = Some [ymd 2025 1 8; ymd 2025 1 15; ymd 2025 1 22; ymd 2025 1 29] /\
  option_map (map (fun o => delivery_date (occurrence_order o)))
    (generateRecurringOccurrences parseISO now order)
    = Some [Some "2025-01-08T00:00:00"; Some "2025-01-15T00:00:00";
            Some "2025-01-22T00:00:00"; Some "2025-01-29T00:00:00"] /\
  Forall (fun x => ymd 2025 1 1 < x <= ymd 2025 1 31)
    [ymd 2025 1 8; ymd 2025 1 15; ymd 2025 1 22; ymd 2025 1 29].
Proof.
  intros Hparse Hh Hrec Hst Hd Hp.
  assert (Hdates : occurrenceDates parseISO now order
            = Some [ymd 2025 1 8; ymd 2025 1 15; ymd 2025 1 22; ymd 2025 1 29]).
  { unfold occurrenceDates, projectable.
    rewrite Hrec, Hp, Hd. apply String.eqb_neq in Hst. rewrite Hst.
    cbn [negb orb String.eqb Ascii.eqb Bool.eqb]. rewrite Hparse.
    unfold projectionLoop. rewrite Hh. vm_compute. reflexivity. }
  split; [exact Hdates | split].
  - unfold generateRecurringOccurrences. rewrite Hdates.
    cbn [option_map map occurrenceAt occurrence_order with_delivery_date delivery_date].
    vm_compute. reflexivity.
  - repeat constructor; vm_compute; congruence.
Qed.

(** C4. An order that is not recurring, has no pattern, has no delivery
    date or is cancelled projects to the empty list, whatever its other
    fields are. *)
Theorem failed_precondition_projects_nothing (now : Z) (order : Order) :
  is_recurring order = false \/ recurrence_pattern order = None \/
  delivery_date order = None \/ status order = "cancelled" ->
  generateRecurringOccurrences parseISO now order = Some [].
Proof.
  intros H. unfold generateRecurringOccurrences, occurrenceDates.
  replace (projectable order) with (@None (RecurrencePattern * string));
    [reflexivity | ].
  unfold projectable.
  destruct (is_recurring order); cbn [negb]; [ | reflexivity].
  destruct (recurrence_pattern order); [ | reflexivity].
  destruct (delivery_date order) as [d | ]; [ | reflexivity].
  destruct H as [H | [H | [H | H]]]; try discriminate.
  rewrite H. cbn. rewrite orb_true_r. reflexivity.
Qed.

(** C6. With an unrecognized frequency type the loop is left in its first
    pass, before the counter moves, and the projection is empty. *)
Theorem unrecognized_frequency_halts (now : Z) (order : Order)
    (pattern : RecurrencePattern) :
  recurrence_pattern order = Some pattern ->
  recognized (frequency_type pattern) = false ->
  generateRecurringOccurrences parseISO now order = Some [] /\
  forall st, projectionRun parseISO now order = Some st ->
             iteration st = 0 /\ occurrences st = [].
Proof.
  intros Hp Hrec. unfold generateRecurringOccurrences.
  destruct (projection_cases now order)
    as [[Hr Hd] | (p & d & startDate & st & Hpr & _ & Hloop & Hr & Hd)];
    rewrite Hd, Hr; cbn [option_map map].
  - split; [reflexivity | discriminate].
  - apply projectable_fields in Hpr. destruct Hpr as (_ & Hp' & _).
    rewrite Hp in Hp'. injection Hp' as <-.
    apply projectionLoop_breaks in Hloop; [ | exact Hrec].
    destruct Hloop as [Hi Ho]. rewrite Ho.
    split; [reflexivity | ]. intros st' [= <-]. auto.
Qed.

(** C5, as amended. A pattern whose interval is zero or negative is not
    turned away before the loop and raises no error: with a recognized type
    and a start date that is not after the horizon the loop is entered and
    makes a pass, the date never passes the start, nothing is pushed and the
    projection is the empty list.  With an interval of zero the date stays
    on the start, and only the bound of 200 passes ends the loop. *)
Theorem nonpositive_interval_enters_loop (now : Z) (order : Order)
    (pattern : RecurrencePattern) (d : string) (startDate : Z) :
  projectable order = Some (pattern, d) ->
  parseISO d = Some startDate ->
  recognized (frequency_type pattern) = true ->
  frequencyValueOf pattern <= 0 ->
  startDate <= addMonths now 6 ->
  generateRecurringOccurrences parseISO now order = Some [] /\
  exists st,
    projectionRun parseISO now order = Some st /\
    1 <= iteration st <= maxIterations /\
    occurrences st = [] /\
    currentDate st <= startDate /\
    (frequencyValueOf pattern = 0 ->
     iteration st = maxIterations /\ currentDate st = startDate).
Proof.
  intros Hp Hparse Hrec Hv Hh.
  unfold generateRecurringOccurrences, occurrenceDates, projectionRun.
  rewrite Hp, Hparse.
  destruct (projectionLoop_returns now pattern startDate) as [st Hst].
  rewrite Hst.
  pose proof (projectionLoop_enters _ _ _ _ Hrec Hh Hst) as Hone.
  pose proof (projectionLoop_pushes _ _ _ _ Hst) as (_ & _ & Hit).
  pose proof (projectionLoop_never_past_start _ _ _ _ Hv Hst) as [Ho Hc].
  cbn [option_map]. rewrite Ho. split; [reflexivity | ].
  exists st. split; [reflexivity | split; [lia | split; [exact Ho | split; [exact Hc | ]]]].
  intros Hz. split.
  - apply (projectionLoop_runs_to_bound now pattern startDate st Hv Hrec Hh Hst).
  - apply (projectionLoop_stays now pattern startDate st Hz Hst).
Qed.

(** C10. Every call returns a list, after at most 200 passes of the loop
    and with at most 200 occurrences; when the interval is zero or negative
    the list is empty. *)
Theorem projection_total (now : Z) (order : Order) :
  exists occs,
    generateRecurringOccurrences parseISO now order = Some occs /\
    (List.length occs <= 200)%nat /\
    (forall st, projectionRun parseISO now order = Some st ->
                0 <= iteration st <= maxIterations) /\
    (forall pattern, recurrence_pattern order = Some pattern ->
                     frequencyValueOf pattern <= 0 -> occs = []).
Proof.
  unfold generateRecurringOccurrences.
  destruct (projection_cases now order)
    as [[Hr Hd] | (p & d & startDate & st & Hpr & _ & Hloop & Hr & Hd)];
    rewrite Hd, Hr; cbn [option_map map].
  - exists []. cbn. repeat split; auto; try lia; discriminate.
  - exists (map (occurrenceAt order) (occurrences st)).
    pose proof (projectionLoop_pushes _ _ _ _ Hloop) as (_ & Hl & Hit).
    split; [reflexivity | split; [ | split]].
    + rewrite length_map. exact Hl.
    + intros st' [= <-]. exact Hit.
    + intros pattern Hp Hv.
      apply projectable_fields in Hpr. destruct Hpr as (_ & Hp' & _).
      rewrite Hp in Hp'. injection Hp' as <-.
      apply projectionLoop_never_past_start in Hloop; [ | exact Hv].
      destruct Hloop as [Hn _]. rewrite Hn. reflexivity.
Qed.

End Claims.

(** ** Closed instances *)


Lemma weekly_january_projection_witness :
  occurrenceDates parseCalendarDate (ymd 2024 7 31) weeklyOrder
    = Some [ymd 2025 1 8; ymd 2025 1 15; ymd 2025 1 22; ymd 2025 1 29] /\
  option_map (map (fun o => delivery_date (occurrence_order o)))
    (generateRecurringOccurrences parseCalendarDate (ymd 2024 7 31) weeklyOrder)
    = Some [Some "2025-01-08T00:00:00"; Some "2025-01-15T00:00:00";
            Some "2025-01-22T00:00:00"; Some "2025-01-29T00:00:00"] /\
  Forall (fun x => ymd 2025 1 1 < x <= ymd 2025 1 31)
    [ymd 2025 1 8; ymd 2025 1 15; ymd 2025 1 22; ymd 2025 1 29].
Proof.
  apply (weekly_january_projection parseCalendarDate (ymd 2024 7 31) weeklyOrder).
  - vm_compute. reflexivity.
  - vm_compute. reflexivity.
  - reflexivity.
  - cbn. discriminate.
  - reflexivity.
  - reflexivity.
Defined.

Lemma failed_precondition_projects_nothing_witness :
  generateRecurringOccurrences parseCalendarDate (ymd 2024 7 31) cancelledOrder
    = Some [].
Proof.
  apply (failed_precondition_projects_nothing parseCalendarDate (ymd 2024 7 31)
           cancelledOrder).
  right. right. right. reflexivity.
Defined.

Lemma unrecognized_frequency_halts_witness :
  generateRecurringOccurrences parseCalendarDate (ymd 2024 7 31)
    (withPattern weeklyOrder "yearly" (Some 1)) = Some [] /\
  forall st,
    projectionRun parseCalendarDate (ymd 2024 7 31)
      (withPattern weeklyOrder "yearly" (Some 1)) = Some st ->
    iteration st = 0 /\ occurrences st = [].
Proof.
  apply (unrecognized_frequency_halts parseCalendarDate (ymd 2024 7 31)
           (withPattern weeklyOrder "yearly" (Some 1))
           {| frequency_type := "yearly"; frequency_value := Some 1 |}).
  - reflexivity.
  - reflexivity.
Defined.

Lemma projection_total_witness :
  exists occs,
    generateRecurringOccurrences parseCalendarDate (ymd 2024 7 31)
      (withPattern weeklyOrder "daily" (Some (-3))) = Some occs /\
    (List.length occs <= 200)%nat /\
    (forall st,
       projectionRun parseCalendarDate (ymd 2024 7 31)
         (withPattern weeklyOrder "daily" (Some (-3))) = Some st ->
       0 <= iteration st <= maxIterations) /\
    (forall pattern,
       recurrence_pattern (withPattern weeklyOrder "daily" (Some (-3)))
         = Some pattern ->
       frequencyValueOf pattern <= 0 -> occs = []).
Proof.
  exact (projection_total parseCalendarDate (ymd 2024 7 31)
           (withPattern weeklyOrder "daily" (Some (-3)))).
Defined.

(** C5, the claim as stated fails: the daily order with interval 0 is not
    turned away before the loop; the loop makes all of its 200 passes on the
    start date. *)
Lemma zero_interval_enters_loop :
  projectionRun parseCalendarDate (ymd 2024 7 31)
    (withPattern weeklyOrder "daily" (Some 0))
  = Some {| currentDate := ymd 2025 1 1; iteration := 200; occurrences := [] |}.
Proof. vm_compute. reflexivity. Qed.

Lemma nonpositive_interval_enters_loop_witness :
  generateRecurringOccurrences parseCalendarDate (ymd 2024 7 31)
    (withPattern weeklyOrder "monthly" (Some 0)) = Some [] /\
  exists st,
    projectionRun parseCalendarDate (ymd 2024 7 31)
      (withPattern weeklyOrder "monthly" (Some 0)) = Some st /\
    1 <= iteration st <= maxIterations /\
    occurrences st = [] /\
    currentDate st <= ymd 2025 1 1 /\
    (0 = 0 -> iteration st = maxIterations /\ currentDate st = ymd 2025 1 1).
Proof.
  apply (nonpositive_interval_enters_loop parseCalendarDate (ymd 2024 7 31)
           (withPattern weeklyOrder "monthly" (Some 0))
           {| frequency_type := "monthly"; frequency_value := Some 0 |}
           "2025-01-01" (ymd 2025 1 1)).
  - reflexivity.
  - vm_compute. reflexivity.
  - reflexivity.
  - cbn. lia.
  - vm_compute. discriminate.
Defined.

(** ** The GST breakdown *)

(** The integer [toFixed] prints is the nearest one to 100 times the
    magnitude, the upper one of two nearest. *)
Lemma nearestHundredths_exact (m e : Z) :
  0 <= e -> nearestHundredths m e = 100 * (m * 2 ^ e).
Proof.
  intros He. unfold nearestHundredths.
  destruct (Z.leb_spec 0 e); lia.
Qed.

Lemma nearestHundredths_half_up (m e : Z) :
  e < 0 ->
  (2 * nearestHundredths m e - 1) * 2 ^ (- e) <= 200 * m
    < (2 * nearestHundredths m e + 1) * 2 ^ (- e).
Proof.
  intros He. unfold nearestHundredths.
  destruct (Z.leb_spec 0 e); [lia | ].
  replace (- e + 1) with (Z.succ (- e)) by lia.
  rewrite Z.pow_succ_r by lia.
  assert (Hp : 0 < 2 ^ (- e)) by (apply Z.pow_pos_nonneg; lia).
  generalize dependent (2 ^ (- e)). intros P HP.
  pose proof (Z.div_mod (200 * m + P) (2 * P) ltac:(lia)) as Hd.
  pose proof (Z.mod_pos_bound (200 * m + P) (2 * P) ltac:(lia)) as Hr.
  set (q := (200 * m + P) / (2 * P)) in *.
  set (r := (200 * m + P) mod (2 * P)) in *.
  clearbody q r. nia.
Qed.

(** C8, at the amount 9.95, the subtotal of one item at 9.95: the block
    shows a base of 9.95, a GST of 0.99 and a total of 10.95.  The product 9.95 * 0.10 is a binary64 number just
    below 0.995, which [toFixed] rounds down, where 10 percent of 9.95
    rounds half-up to 1.00; and the total is rounded from 9.95 * 1.10 on its
    own, so it is a cent above base plus GST.  At the amounts 95 and 60 of
    the documentation the three figures agree. *)
Theorem gst_breakdown_off_by_a_cent :
  subtotal [shirt 1 (995 / 100)] = Ok (995 / 100)%float /\
  gstBreakdown false (withAmount weeklyOrder (995 / 100)%float)
    = Some {| baseAmount := Some "9.95"; gstAmount := Some "0.99";
              totalIncGst := Some "10.95" |} /\
  hundredths (995 / 100)%float = Some 995 /\
  hundredths (995 / 100 * GST_RATE)%float = Some 99 /\
  hundredths (995 / 100 * GST_INCLUSIVE)%float = Some 1095 /\
  1095 <> 995 + 99 /\
  99 <> (995 * 10 + 50) / 100 /\
  gstBreakdown false (withAmount weeklyOrder 95%float)
    = Some {| baseAmount := Some "95.00"; gstAmount := Some "9.50";
              totalIncGst := Some "104.50" |} /\
  gstBreakdown false (withAmount weeklyOrder 60%float)
    = Some {| baseAmount := Some "60.00"; gstAmount := Some "6.00";
              totalIncGst := Some "66.00" |}.
Proof. repeat split; vm_compute; congruence. Qed.

(** ** The modification workflow *)

Lemma subtotalFrom_valid (its : list Item) (acc : float) :
  forallb validItem its = true -> exists total, subtotalFrom acc its = Ok total.
Proof.
  revert acc. induction its as [ | it rest IH]; intros acc; cbn [forallb subtotalFrom].
  - intros _. exists acc. reflexivity.
  - intros H. apply andb_prop in H. destruct H as [Hit Hrest].
    unfold lineTotal. rewrite Hit. unfold validItem, validValue in Hit.
    destruct (quantity it) as [q | ]; [ | discriminate].
    destruct (price it) as [p | ]; [ | rewrite andb_false_r in Hit; discriminate].
    apply IH. exact Hrest.
Qed.

Lemma subtotalFrom_invalid (its : list Item) (acc : float) :
  forallb validItem its = false -> subtotalFrom acc its = Err InvalidItemError.
Proof.
  revert acc. induction its as [ | it rest IH]; intros acc; cbn [forallb subtotalFrom].
  - discriminate.
  - unfold lineTotal. destruct (validItem it) eqn:Hit; cbn [andb].
    + intros Hrest. unfold validItem, validValue in Hit.
      destruct (quantity it) as [q | ]; [ | discriminate].
      destruct (price it) as [p | ]; [ | rewrite andb_false_r in Hit; discriminate].
      apply IH. exact Hrest.
    + intros _. destruct (quantity it), (price it); reflexivity.
Qed.

(** C2. approve requires a pending proposal; with proposed items that are
    all valid it sets the total to their subtotal, whatever the stored and
    the proposed total are, replaces the items, marks the order approved
    and clears the proposal, and leaves the other fields alone; with a
    proposed item whose quantity or price is negative or missing it fails
    with an InvalidItemError and returns no order; with no proposed items
    it keeps the items and takes the total the proposal states.  On the
    order with two shirts at 30 and the proposal of one at 60 and one at 35
    the total becomes 95, and the dialog shows 104.50 including GST; the
    proposal of a shirt at a negative price is turned away. *)
Theorem approve_recomputes_total :
  (forall order pm its,
     modification_status order = Some Pending ->
     pending_modifications order = Some pm ->
     proposed_items pm = Some its ->
     forallb validItem its = true ->
     exists order' total,
       approve order = Ok order' /\
       subtotal its = Ok total /\
       total_amount order' = total /\
       items order' = its /\
       modification_status order' = Some Approved /\
       pending_modifications order' = None /\
       id order' = id order /\
       is_recurring order' = is_recurring order /\
       recurrence_pattern order' = recurrence_pattern order /\
       delivery_date order' = delivery_date order /\
       status order' = status order) /\
  (forall order pm its,
     modification_status order = Some Pending ->
     pending_modifications order = Some pm ->
     proposed_items pm = Some its ->
     forallb validItem its = false ->
     subtotal its = Err InvalidItemError /\
     approve order = Err InvalidItemError) /\
  (forall order pm,
     modification_status order = Some Pending ->
     pending_modifications order = Some pm ->
     proposed_items pm = None ->
     exists order',
       approve order = Ok order' /\
       items order' = items order /\
       total_amount order'
       = match proposed_total_amount pm with
         | Some t => t
         | None => total_amount order
         end /\
       modification_status order' = Some Approved /\
       pending_modifications order' = None) /\
  (forall order,
     modification_status order <> Some Pending ->
     approve order = Err NoPendingModificationError) /\
  subtotal (items proposedOrder) = Ok 60%float /\
  (exists order',
     approve proposedOrder = Ok order' /\
     total_amount order' = 95%float /\
     items order' = [shirt 1 60; shirt 1 35] /\
     modification_status order' = Some Approved /\
     pending_modifications order' = None /\
     option_map totalIncGst (gstBreakdown false order') = Some (Some "104.50")) /\
  approve negativeProposal = Err InvalidItemError.
Proof.
  split; [ | split; [ | split; [ | split; [ | split; [ | split]]]]].
  - intros order pm its Hs Hpm Hits Hvalid.
    destruct (subtotalFrom_valid its 0%float Hvalid) as [total Ht].
    unfold approve, isPending, proposedItems, subtotal.
    rewrite Hs, Hpm, Hits, Ht. eexists. exists total.
    split; [reflexivity | ]. cbn. repeat split; reflexivity.
  - intros order pm its Hs Hpm Hits Hinvalid.
    pose proof (subtotalFrom_invalid its 0%float Hinvalid) as Ht.
    unfold approve, isPending, proposedItems, subtotal.
    rewrite Hs, Hpm, Hits, Ht. split; reflexivity.
  - intros order pm Hs Hpm Hits.
    unfold approve, isPending, proposedItems, proposedTotal.
    rewrite Hs, Hpm, Hits. eexists. split; [reflexivity | ].
    cbn. repeat split; reflexivity.
  - intros order Hs. unfold approve, isPending.
    destruct (modification_status order) as [[ | | ] | ];
      try reflexivity. congruence.
  - vm_compute. reflexivity.
  - eexists. split; [vm_compute; reflexivity | ].
    repeat split; vm_compute; reflexivity.
  - vm_compute. reflexivity.
Qed.

Lemma approve_recomputes_total_witness :
  exists order' total,
    approve proposedOrder = Ok order' /\
    subtotal [shirt 1 60; shirt 1 35] = Ok total /\
    total_amount order' = total /\
    items order' = [shirt 1 60; shirt 1 35] /\
    modification_status order' = Some Approved /\
    pending_modifications order' = None /\
    id order' = id proposedOrder /\
    is_recurring order' = is_recurring proposedOrder /\
    recurrence_pattern order' = recurrence_pattern proposedOrder /\
    delivery_date order' = delivery_date proposedOrder /\
    status order' = status proposedOrder.
Proof.
  apply (proj1 approve_recomputes_total proposedOrder
           {| proposed_items := Some [shirt 1 60; shirt 1 35];
              proposed_total_amount := Some 95%float |}
           [shirt 1 60; shirt 1 35]).
  - reflexivity.
  - reflexivity.
  - reflexivity.
  - vm_compute. reflexivity.
Defined.

(** C9. reject requires a pending proposal; it returns the order with the
    items, the total and every other field as they were, marked rejected
    and with the proposal cleared. *)
Theorem reject_keeps_order :
  (forall order,
     modification_status order = Some Pending ->
     exists order',
       reject order = Ok order' /\
       items order' = items order /\
       total_amount order' = total_amount order /\
       modification_status order' = Some Rejected /\
       pending_modifications order' = None /\
       id order' = id order /\
       is_recurring order' = is_recurring order /\
       recurrence_pattern order' = recurrence_pattern order /\
       delivery_date order' = delivery_date order /\
       status order' = status order) /\
  (forall order,
     modification_status order <> Some Pending ->
     reject order = Err NoPendingModificationError).
Proof.
  split.
  - intros order Hs. unfold reject, isPending. rewrite Hs.
    eexists. split; [reflexivity | ]. cbn. repeat split; reflexivity.
  - intros order Hs. unfold reject, isPending.
    destruct (modification_status order) as [[ | | ] | ];
      try reflexivity. congruence.
Qed.

Lemma reject_keeps_order_witness :
  exists order',
    reject proposedOrder = Ok order' /\
    items order' = [shirt 2 30] /\
    total_amount order' = 60%float /\
    modification_status order' = Some Rejected /\
    pending_modifications order' = None /\
    id order' = id proposedOrder /\
    is_recurring order' = is_recurring proposedOrder /\
    recurrence_pattern order' = recurrence_pattern proposedOrder /\
    delivery_date order' = delivery_date proposedOrder /\
    status order' = status proposedOrder.
Proof.
  apply (proj1 reject_keeps_order proposedOrder). reflexivity.
Defined.

(** * Further properties *)

(** ** The sequence of projected dates *)

Lemma last_default {A : Type} (x d d' : A) (l : list A) :
  last (x :: l) d = last (x :: l) d'.
Proof.
  revert x. induction l as [ | y l IH]; intros x; [reflexivity | ].
  change (last (y :: l) d = last (y :: l) d'). apply IH.
Qed.

Lemma chained_snoc {A : Type} (R : A -> A -> Prop) (a b : A) (l : list A) :
  chained R a (l ++ [b]) <-> chained R a l /\ R (last l a) b.
Proof.
  revert a. induction l as [ | c l IH]; intros a; cbn [app chained].
  - cbn. tauto.
  - rewrite IH. destruct l as [ | c' l'].
    + cbn. tauto.
    + change (last (c :: c' :: l') a) with (last (c' :: l') a).
      rewrite (last_default c' c a). tauto.
Qed.

Section Sequence.

Variables (ft : string) (fv startDate horizon : Z).

Lemma occurrenceLoop_chain (fuel : nat) (st st' : LoopState) :
  0 < fv ->
  betweenPasses ft fv startDate st ->
  occurrenceLoop fuel ft fv startDate horizon st = Some st' ->
  chained (oneInterval ft fv) startDate (occurrences st') /\
  (recognized ft = true ->
   (betweenPasses ft fv startDate st' /\
    (horizon < currentDate st' \/ maxIterations <= iteration st'))).
Proof.
  intros Hv. revert st. induction fuel as [ | fuel IH]; intros st Hb;
    cbn [occurrenceLoop];
    destruct (Z.leb_spec (currentDate st) horizon) as [Hc | Hc];
    destruct (Z.ltb_spec (iteration st) maxIterations) as [Hi | Hi];
    cbn [andb]; try discriminate;
    try (intros [= <-]; split;
         [destruct Hb as [(_ & -> & _) | (_ & Hch & _)];
          [exact I | apply chained_snoc in Hch; tauto]
         | intros _; split; [exact Hb | lia]]).
  assert (Hpush : chained (oneInterval ft fv) startDate
                    (if startDate <? currentDate st
                     then occurrences st ++ [currentDate st]
                     else occurrences st)).
  { destruct Hb as [(Hs & -> & _) | (Hs & Hch & _)].
    - destruct (startDate <? currentDate st) eqn:E; [ | exact I].
      apply Z.ltb_lt in E. lia.
    - destruct (Z.ltb_spec startDate (currentDate st)); [exact Hch | lia]. }
  destruct (nextOccurrence ft fv (currentDate st)) as [next | ] eqn:Hn.
  - apply IH. pose proof (nextOccurrence_forward _ _ _ _ Hv Hn) as Hfw.
    right. cbn [currentDate occurrences iteration].
    destruct Hb as [(Hs & Ho & Hit) | (Hs & Hch & Hit)].
    + rewrite Ho, Hit. destruct (Z.ltb_spec startDate (currentDate st)); [lia | ].
      cbn [app chained List.length Z.of_nat Z.add].
      split; [lia | split; [ | reflexivity]].
      split; [ | exact I]. unfold oneInterval. rewrite <- Hs. exact Hn.
    + destruct (Z.ltb_spec startDate (currentDate st)); [ | lia].
      split; [lia | split].
      * apply chained_snoc. split; [exact Hch | ].
        rewrite last_last. exact Hn.
      * rewrite length_app. cbn. lia.
  - intros [= <-]. cbn [occurrences]. split; [exact Hpush | ].
    intros Hrec. destruct (nextOccurrence_recognized ft fv (currentDate st) Hrec).
    congruence.
Qed.

End Sequence.

(** The pass on the start date pushes nothing, which leaves one pass less
    for pushing. *)
Lemma occurrenceLoop_first_pass (ft : string) (fv startDate horizon : Z)
    (fuel : nat) (st st' : LoopState) :
  currentDate st <= startDate ->
  occurrenceLoop fuel ft fv startDate horizon st = Some st' ->
  Z.of_nat (List.length (occurrences st'))
    <= Z.of_nat (List.length (occurrences st))
       + Z.max 0 (maxIterations - iteration st - 1).
Proof.
  intros Hs. destruct fuel as [ | fuel]; cbn [occurrenceLoop];
    destruct ((currentDate st <=? horizon) && (iteration st <? maxIterations));
    try discriminate; try (intros [= <-]; lia).
  destruct (Z.ltb_spec startDate (currentDate st)) as [ | _]; [lia | ].
  destruct (nextOccurrence ft fv (currentDate st)) as [next | ];
    [ | intros [= <-]; cbn; lia].
  intros Hrun. apply occurrenceLoop_pushes in Hrun.
  destruct Hrun as (pushed & -> & _ & Hl & _).
  cbn [occurrences iteration] in *. rewrite length_app. lia.
Qed.

Lemma projectionLoop_first_pass (now : Z) (pattern : RecurrencePattern)
    (startDate : Z) (st : LoopState) :
  projectionLoop now pattern startDate = Some st ->
  (List.length (occurrences st) <= 199)%nat.
Proof.
  unfold projectionLoop. intros Hrun.
  apply occurrenceLoop_first_pass in Hrun; [ | cbn [currentDate]; lia].
  cbn [occurrences iteration List.length] in Hrun.
  unfold maxIterations in Hrun. lia.
Qed.

(** ** Month arithmetic *)

Lemma monthIndex_unique (d k : Z) :
  firstOfMonth k <= d < firstOfMonth (k + 1) -> monthIndex d = k.
Proof.
  intros H.
  pose proof (day_from_month_start d) as Hs.
  pose proof (DateFromDay_pos d) as Hp.
  pose proof (day_before_next_month d) as Hb.
  destruct (Z.lt_trichotomy (monthIndex d) k) as [Hlt | [Heq | Hgt]];
    [ | exact Heq | ].
  - pose proof (firstOfMonth_le (monthIndex d + 1) k). lia.
  - pose proof (firstOfMonth_le (k + 1) (monthIndex d)). lia.
Qed.

Lemma monthLength_eq (k : Z) :
  monthLength k = firstOfMonth (k + 1) - firstOfMonth k.
Proof. reflexivity. Qed.

Lemma monthLength_range (k : Z) : 28 <= monthLength k.
Proof. rewrite monthLength_eq. pose proof (firstOfMonth_next k). lia. Qed.

Lemma getDate_range (t : Z) :
  1 <= getDate t <= monthLength (monthIndex (Day t)).
Proof.
  rewrite monthLength_eq. unfold getDate.
  pose proof (day_from_month_start (Day t)).
  pose proof (DateFromDay_pos (Day t)).
  pose proof (day_before_next_month (Day t)). lia.
Qed.

(** Where [addMonths] lands: in the month [n] months away, on the same day
    of the month when that month is long enough and on its last day
    otherwise, at the same time of day. *)
Lemma addMonths_exact (t n : Z) :
  addMonths t n
  = MakeDate (firstOfMonth (monthIndex (Day t) + n)
              + Z.min (getDate t) (monthLength (monthIndex (Day t) + n)) - 1)
             (TimeWithinDay t).
Proof.
  pose proof (TimeWithinDay_range t) as Htod.
  pose proof (getDate_range t) as Hd.
  unfold addMonths. destruct (Z.eqb_spec n 0) as [-> | Hn].
  - rewrite Z.add_0_r. rewrite (time_value_split t) at 1. f_equal.
    pose proof (day_from_month_start (Day t)) as Hs.
    change (DateFromDay (Day t)) with (getDate t) in Hs. lia.
  - cbv zeta. unfold setMonth, setFullYear, getFullYear, getMonth.
    set (k' := monthIndex (Day t) + n) in *.
    set (e := MakeDay (YearFromDay (Day t)) (MonthFromDay (Day t) + n + 1) 0).
    assert (He : e = firstOfMonth (k' + 1) - 1).
    { subst e k'. rewrite MakeDay_firstOfMonth. unfold monthIndex.
      replace (12 * YearFromDay (Day t) + (MonthFromDay (Day t) + n + 1))
        with (12 * YearFromDay (Day t) + MonthFromDay (Day t) + n + 1) by lia.
      lia. }
    pose proof (monthLength_range k') as Hr. pose proof (monthLength_eq k') as Hl.
    assert (Hk : monthIndex e = k') by (apply monthIndex_unique; lia).
    pose proof (day_from_month_start e) as Hs. rewrite Hk in Hs.
    assert (Hg : getDate (MakeDate e (TimeWithinDay t)) = DateFromDay e).
    { unfold getDate. rewrite Day_MakeDate by exact Htod. reflexivity. }
    rewrite Hg, !Day_MakeDate by exact Htod.
    destruct (Z.geb_spec (getDate t) (DateFromDay e)) as [Hge | Hlt].
    + f_equal. lia.
    + f_equal. rewrite (MakeDay_date _ _ (DateFromDay e)), MakeDay_fields. lia.
Qed.

Lemma addMonths_monthIndex (t n : Z) :
  monthIndex (Day (addMonths t n)) = monthIndex (Day t) + n.
Proof.
  rewrite addMonths_exact, Day_MakeDate by apply TimeWithinDay_range.
  apply monthIndex_unique.
  pose proof (getDate_range t).
  pose proof (monthLength_range (monthIndex (Day t) + n)).
  pose proof (monthLength_eq (monthIndex (Day t) + n)). lia.
Qed.

Lemma getDate_in_month (k d tod : Z) :
  1 <= d <= monthLength k -> 0 <= tod < msPerDay ->
  getDate (MakeDate (firstOfMonth k + d - 1) tod) = d.
Proof.
  intros Hd Htod. unfold getDate. rewrite Day_MakeDate by exact Htod.
  pose proof (day_from_month_start (firstOfMonth k + d - 1)) as Hs.
  pose proof (monthLength_eq k) as Hl.
  rewrite (monthIndex_unique (firstOfMonth k + d - 1) k) in Hs; lia.
Qed.

Lemma addMonths_getDate (t n : Z) :
  getDate (addMonths t n)
  = Z.min (getDate t) (monthLength (monthIndex (Day t) + n)).
Proof.
  rewrite addMonths_exact. apply getDate_in_month.
  - pose proof (getDate_range t).
    pose proof (monthLength_range (monthIndex (Day t) + n)). lia.
  - apply TimeWithinDay_range.
Qed.

Lemma TimeWithinDay_MakeDate (d tod : Z) :
  0 <= tod < msPerDay -> TimeWithinDay (MakeDate d tod) = tod.
Proof.
  intros H. unfold TimeWithinDay, MakeDate.
  rewrite Z.add_comm, Z.mod_add by (unfold msPerDay; lia).
  apply Z.mod_small. exact H.
Qed.

Lemma addMonths_time (t n : Z) :
  TimeWithinDay (addMonths t n) = TimeWithinDay t.
Proof.
  rewrite addMonths_exact. apply TimeWithinDay_MakeDate, TimeWithinDay_range.
Qed.

(** ** The projected dates, one interval apart *)

Lemma chained_impl {A : Type} (R S : A -> A -> Prop) (a : A) (l : list A) :
  (forall x y, R x y -> S x y) -> chained R a l -> chained S a l.
Proof.
  intros H. revert a. induction l as [ | b l IH]; intros a; cbn [chained].
  - trivial.
  - intros [Hab Hl]. split; [apply H; exact Hab | apply IH; exact Hl].
Qed.

Lemma chained_steps (step s : Z) (l : list Z) :
  chained (fun a b => b = a + step) s l ->
  l = map (fun k => s + Z.of_nat k * step) (seq 1 (List.length l)) /\
  last l s = s + Z.of_nat (List.length l) * step.
Proof.
  revert s. induction l as [ | b l IH]; intros s; cbn [chained].
  - intros _. cbn. split; [reflexivity | lia].
  - intros [-> Hl]. apply IH in Hl. destruct Hl as [Hmap Hlast].
    split.
    + cbn [List.length seq map]. f_equal; [change (Z.of_nat 1) with 1; lia | ].
      rewrite <- seq_shift, map_map. rewrite Hmap at 1.
      apply map_ext. intros k. rewrite Nat2Z.inj_succ. lia.
    + destruct l as [ | c l'];
        [cbn [last List.length]; change (Z.of_nat 1) with 1; lia | ].
      change (last (s + step :: c :: l') s) with (last (c :: l') s).
      rewrite (last_default c s (s + step)), Hlast.
      change (List.length (s + step :: c :: l')) with (S (List.length (c :: l'))).
      rewrite Nat2Z.inj_succ. lia.
Qed.

Lemma last_in_or_default (l : list Z) (d : Z) : last l d = d \/ In (last l d) l.
Proof.
  induction l as [ | a l IH]; [left; reflexivity | right].
  destruct l as [ | b l']; [left; reflexivity | ].
  change (last (a :: b :: l') d) with (last (b :: l') d).
  destruct IH as [IH | IH]; [ | right; exact IH].
  right. rewrite (last_default b d b) in *.
  clear IH. revert b. induction l' as [ | c l'' IH']; intros b.
  - left. reflexivity.
  - right. change (last (b :: c :: l'') b) with (last (c :: l'') b).
    rewrite (last_default c b c). apply IH'.
Qed.



Section MoreProjection.

Variable parseISO : string -> option Z.

Lemma occurrenceDates_run (now : Z) (order : Order)
    (pattern : RecurrencePattern) (d : string) (startDate : Z) :
  projectable order = Some (pattern, d) ->
  parseISO d = Some startDate ->
  exists st,
    projectionLoop now pattern startDate = Some st /\
    occurrenceDates parseISO now order = Some (occurrences st).
Proof.
  intros Hp Hparse. unfold occurrenceDates. rewrite Hp, Hparse.
  destruct (projectionLoop_returns now pattern startDate) as [st Hst].
  exists st. rewrite Hst. split; reflexivity.
Qed.

Lemma projectionLoop_chain (now : Z) (pattern : RecurrencePattern)
    (startDate : Z) (st : LoopState) :
  1 <= frequencyValueOf pattern ->
  projectionLoop now pattern startDate = Some st ->
  chained (fun a b => nextOccurrence (frequency_type pattern)
                        (frequencyValueOf pattern) a = Some b)
    startDate (occurrences st) /\
  (recognized (frequency_type pattern) = true ->
   startDate <= addMonths now 6 ->
   exists next,
     nextOccurrence (frequency_type pattern) (frequencyValueOf pattern)
       (last (occurrences st) startDate) = Some next /\
     (addMonths now 6 < next \/ List.length (occurrences st) = 199%nat)).
Proof.
  intros Hv Hloop.
  pose proof (projectionLoop_first_pass _ _ _ _ Hloop) as Hlen.
  unfold projectionLoop in Hloop.
  apply occurrenceLoop_chain in Hloop; [ | lia | left; cbn; auto].
  destruct Hloop as [Hch Hend]. split; [exact Hch | ].
  intros Hrec Hh. destruct (Hend Hrec) as [Hb Hexit].
  destruct Hb as [(Hc & Ho & Hi) | (Hc & Hchain & Hi)].
  - unfold maxIterations in Hexit. lia.
  - apply chained_snoc in Hchain. destruct Hchain as [_ Hlast].
    exists (currentDate st). split; [exact Hlast | ].
    unfold maxIterations in Hexit. lia.
Qed.

(** X1. A call never returns more than 199 occurrences: the first of the
    200 passes is spent on the delivery date itself, which is not pushed. *)
Theorem projection_at_most_199 (now : Z) (order : Order) :
  exists occs,
    generateRecurringOccurrences parseISO now order = Some occs /\
    (List.length occs <= 199)%nat.
Proof.
  unfold generateRecurringOccurrences.
  destruct (projection_cases parseISO now order)
    as [[_ Hd] | (p & d & startDate & st & _ & _ & Hloop & _ & Hd)];
    rewrite Hd; cbn [option_map].
  - exists []. split; [reflexivity | cbn; lia].
  - eexists. split; [reflexivity | ]. rewrite length_map.
    apply (projectionLoop_first_pass _ _ _ _ Hloop).
Qed.

(** X2. With an interval of at least one, each projected date is exactly
    one interval after the date before it, and the first one interval after
    the delivery date: no step is left out and none is taken twice. *)
Theorem occurrences_one_interval_apart (now : Z) (order : Order)
    (pattern : RecurrencePattern) (d : string) (startDate : Z) :
  projectable order = Some (pattern, d) ->
  parseISO d = Some startDate ->
  1 <= frequencyValueOf pattern ->
  exists dates,
    occurrenceDates parseISO now order = Some dates /\
    chained (fun a b => nextOccurrence (frequency_type pattern)
                          (frequencyValueOf pattern) a = Some b)
      startDate dates.
Proof.
  intros Hp Hparse Hv.
  destruct (occurrenceDates_run now order pattern d startDate Hp Hparse)
    as (st & Hloop & Hd).
  exists (occurrences st). split; [exact Hd | ].
  apply (projectionLoop_chain now pattern startDate st Hv Hloop).
Qed.

(** X3. The list is not cut short: with a recognized type, an interval of
    at least one and a delivery date within the horizon, the date one
    interval after the last listed one (after the delivery date, when the
    list is empty) lies past the horizon, unless 199 dates are listed. *)
Theorem projection_runs_up_to_horizon (now : Z) (order : Order)
    (pattern : RecurrencePattern) (d : string) (startDate : Z) :
  projectable order = Some (pattern, d) ->
  parseISO d = Some startDate ->
  recognized (frequency_type pattern) = true ->
  1 <= frequencyValueOf pattern ->
  startDate <= addMonths now 6 ->
  exists dates next,
    occurrenceDates parseISO now order = Some dates /\
    nextOccurrence (frequency_type pattern) (frequencyValueOf pattern)
      (last dates startDate) = Some next /\
    (addMonths now 6 < next \/ List.length dates = 199%nat).
Proof.
  intros Hp Hparse Hrec Hv Hh.
  destruct (occurrenceDates_run now order pattern d startDate Hp Hparse)
    as (st & Hloop & Hd).
  destruct (projectionLoop_chain now pattern startDate st Hv Hloop) as [_ Hend].
  destruct (Hend Hrec Hh) as (next & Hn & Hexit).
  exists (occurrences st), next. auto.
Qed.

(** Daily and weekly orders, on local times: the projected dates are the
    delivery date plus 1, 2, 3, ... intervals, as many as fit up to the
    horizon and at most 199. *)
Lemma local_daily_weekly_dates (now : Z) (order : Order)
    (pattern : RecurrencePattern) (d : string) (startDate step : Z) :
  projectable order = Some (pattern, d) ->
  parseISO d = Some startDate ->
  1 <= frequencyValueOf pattern ->
  startDate <= addMonths now 6 ->
  (frequency_type pattern = "daily" /\
   step = frequencyValueOf pattern * msPerDay) \/
  (frequency_type pattern = "weekly" /\
   step = frequencyValueOf pattern * 7 * msPerDay) ->
  occurrenceDates parseISO now order
  = Some (map (fun k => startDate + Z.of_nat k * step)
            (seq 1 (Z.to_nat (Z.min 199 ((addMonths now 6 - startDate) / step))))).
Proof.
  intros Hp Hparse Hv Hh Hft.
  destruct (occurrenceDates_run now order pattern d startDate Hp Hparse)
    as (st & Hloop & Hd).
  rewrite Hd. f_equal.
  destruct (projectionLoop_chain now pattern startDate st Hv Hloop) as [Hch Hend].
  pose proof (projectionLoop_pushes _ _ _ _ Hloop) as (Hall & _ & _).
  pose proof (projectionLoop_first_pass _ _ _ _ Hloop) as Hlen.
  assert (Hrec : recognized (frequency_type pattern) = true)
    by (destruct Hft as [[-> _] | [-> _]]; reflexivity).
  assert (Hstep : 0 < step)
    by (destruct Hft as [[_ ->] | [_ ->]]; unfold msPerDay; lia).
  assert (Hnext : forall a b,
            nextOccurrence (frequency_type pattern) (frequencyValueOf pattern) a
              = Some b -> b = a + step).
  { intros a b. unfold nextOccurrence.
    destruct Hft as [[-> ->] | [-> ->]]; cbn [String.eqb Ascii.eqb Bool.eqb];
      intros [= <-]; [apply addDays_value | apply addWeeks_value]. }
  destruct (Hend Hrec Hh) as (next & Hn & Hexit). apply Hnext in Hn.
  apply (chained_impl _ (fun a b => b = a + step)) in Hch; [ | exact Hnext].
  apply chained_steps in Hch. destruct Hch as [Hmap Hlast].
  rewrite Hmap at 1. do 2 f_equal.
  set (dates := occurrences st) in *.
  set (L := Z.of_nat (List.length dates)) in *.
  assert (Hle : startDate + L * step <= addMonths now 6).
  { rewrite <- Hlast. destruct (last_in_or_default dates startDate) as [-> | Hin];
      [exact Hh | ].
    rewrite Forall_forall in Hall. apply Hall in Hin. lia. }
  assert (Hq : L <= (addMonths now 6 - startDate) / step).
  { apply Z.div_le_lower_bound; lia. }
  destruct Hexit as [Hpast | H199].
  - assert (Hq' : (addMonths now 6 - startDate) / step < L + 1).
    { apply Z.div_lt_upper_bound; lia. }
    lia.
  - lia.
Qed.

(** Monthly orders, on local times: each projected date falls in the month
    one interval of months after the date before it, at the same time of
    day, on the same day of the month when that month has it and on its
    last day when not. *)
Lemma local_monthly_dates (now : Z) (order : Order)
    (pattern : RecurrencePattern) (d : string) (startDate : Z) :
  projectable order = Some (pattern, d) ->
  parseISO d = Some startDate ->
  frequency_type pattern = "monthly" ->
  1 <= frequencyValueOf pattern ->
  exists dates,
    occurrenceDates parseISO now order = Some dates /\
    chained (fun a b =>
               monthIndex (Day b) = monthIndex (Day a) + frequencyValueOf pattern /\
               getDate b = Z.min (getDate a) (monthLength (monthIndex (Day b))) /\
               TimeWithinDay b = TimeWithinDay a)
      startDate dates.
Proof.
  intros Hp Hparse Hft Hv.
  destruct (occurrenceDates_run now order pattern d startDate Hp Hparse)
    as (st & Hloop & Hd).
  exists (occurrences st). split; [exact Hd | ].
  destruct (projectionLoop_chain now pattern startDate st Hv Hloop) as [Hch _].
  revert Hch. apply chained_impl. intros a b. unfold nextOccurrence. rewrite Hft.
  cbn [String.eqb Ascii.eqb Bool.eqb]. intros [= <-].
  rewrite addMonths_monthIndex, addMonths_getDate, addMonths_time. auto.
Qed.

(** X6. With an interval of at least one the projected dates are strictly
    increasing, so that no date is listed twice. *)
Theorem projected_dates_increase (now : Z) (order : Order)
    (pattern : RecurrencePattern) :
  recurrence_pattern order = Some pattern ->
  1 <= frequencyValueOf pattern ->
  exists dates,
    occurrenceDates parseISO now order = Some dates /\
    StronglySorted Z.lt dates /\ NoDup dates.
Proof.
  intros Hp Hv.
  assert (Hs : exists dates, occurrenceDates parseISO now order = Some dates /\
                             StronglySorted Z.lt dates).
  { destruct (projection_cases parseISO now order)
      as [[_ Hd] | (p & d & startDate & st & Hpr & _ & Hloop & _ & Hd)].
    - exists []. split; [exact Hd | constructor].
    - exists (occurrences st). split; [exact Hd | ].
      apply projectable_fields in Hpr. destruct Hpr as (_ & Hp' & _).
      rewrite Hp in Hp'. injection Hp' as <-.
      apply (projectionLoop_increasing now pattern startDate st Hv Hloop). }
  destruct Hs as (dates & Hd & Hsorted). exists dates.
  split; [exact Hd | split; [exact Hsorted | ]].
  clear Hd. induction Hsorted as [ | a l Hs IH Ha]; constructor; [ | exact IH].
  intros Hin. rewrite Forall_forall in Ha. apply Ha in Hin. lia.
Qed.


End MoreProjection.

(** ** The month grid of the calendar *)

Lemma firstOfMonth_next_upper (k : Z) : firstOfMonth (k + 1) <= firstOfMonth k + 31.
Proof.
  unfold firstOfMonth, MakeDay.
  assert (Hr : 0 <= k mod 12 < 12) by (apply Z.mod_pos_bound; lia).
  destruct (Z.eq_dec (k mod 12) 11) as [E | E].
  - replace (0 + (k + 1) / 12) with (0 + k / 12 + 1) by lia.
    replace ((k + 1) mod 12) with 0 by lia.
    rewrite E, DayFromYear_succ. unfold DaysInYear.
    destruct (InLeapYear (0 + k / 12)), (InLeapYear (0 + k / 12 + 1));
      cbn [monthStart]; lia.
  - replace (0 + (k + 1) / 12) with (0 + k / 12) by lia.
    replace ((k + 1) mod 12) with (k mod 12 + 1) by lia.
    assert (Hc : k mod 12 = 0 \/ k mod 12 = 1 \/ k mod 12 = 2 \/ k mod 12 = 3
                 \/ k mod 12 = 4 \/ k mod 12 = 5 \/ k mod 12 = 6
                 \/ k mod 12 = 7 \/ k mod 12 = 8 \/ k mod 12 = 9
                 \/ k mod 12 = 10) by lia.
    destruct (InLeapYear (0 + k / 12));
      repeat (destruct Hc as [Hc | Hc]; [rewrite Hc; cbn [monthStart Z.add Pos.add Pos.succ]; lia | ]);
      rewrite Hc; cbn [monthStart Z.add Pos.add Pos.succ]; lia.
Qed.

Lemma monthLength_upper (k : Z) : monthLength k <= 31.
Proof. rewrite monthLength_eq. pose proof (firstOfMonth_next_upper k). lia. Qed.

Lemma setDate_shift (t n : Z) : setDate t (getDate t + n) = t + n * msPerDay.
Proof.
  unfold setDate, getFullYear, getMonth, getDate.
  rewrite (MakeDay_date _ _ (DateFromDay (Day t))), MakeDay_fields.
  pose proof (time_value_split t) as Ht.
  unfold MakeDate, msPerDay in *. lia.
Qed.

(** From one midnight on, the loop lists the midnight of every day up to
    the day of the end time. *)
Lemma eachDayLoop_days (n : nat) (fuel : nat) (a : Z) (endTime : Z)
    (dates : list Z) :
  Day endTime = a + Z.of_nat n - 1 ->
  (n <= fuel)%nat ->
  eachDayLoop fuel (MakeDate a 0) endTime dates
  = Some (dates ++ map (fun i => MakeDate (a + Z.of_nat i) 0) (seq 0 n)).
Proof.
  revert fuel a dates. induction n as [ | n IH]; intros fuel a dates Hend Hfuel.
  - assert (Hgt : endTime < MakeDate a 0).
    { rewrite (time_value_split endTime), Hend.
      pose proof (TimeWithinDay_range endTime). unfold MakeDate, msPerDay in *. lia. }
    destruct fuel; cbn [eachDayLoop];
      (destruct (Z.leb_spec (MakeDate a 0) endTime); [lia | ]);
      cbn [seq map]; rewrite app_nil_r; reflexivity.
  - destruct fuel as [ | fuel]; [lia | ]. cbn [eachDayLoop].
    assert (Hle : MakeDate a 0 <= endTime).
    { rewrite (time_value_split endTime) at 1. rewrite Hend.
      pose proof (TimeWithinDay_range endTime). unfold MakeDate, msPerDay in *. lia. }
    destruct (Z.leb_spec (MakeDate a 0) endTime); [ | lia].
    rewrite setDate_shift. unfold setHours.
    replace (Day (MakeDate a 0 + 1 * msPerDay)) with (a + 1)
      by (unfold Day, MakeDate, msPerDay; lia).
    change (MakeTime 0 0 0 0) with 0.
    rewrite IH by lia. rewrite <- app_assoc. do 2 f_equal.
    cbn [seq map app]. rewrite Z.add_0_r. f_equal.
    rewrite <- seq_shift, map_map. apply map_ext. intros i. f_equal. lia.
Qed.

Lemma startOfMonth_value (t : Z) :
  startOfMonth t = MakeDate (firstOfMonth (monthIndex (Day t))) 0.
Proof.
  unfold startOfMonth, setHours, setDate, getFullYear, getMonth.
  rewrite Day_MakeDate by apply TimeWithinDay_range.
  rewrite MakeDay_firstOfMonth. unfold monthIndex.
  change (MakeTime 0 0 0 0) with 0. f_equal. lia.
Qed.

Lemma endOfMonth_value (t : Z) :
  endOfMonth t
  = MakeDate (firstOfMonth (monthIndex (Day t) + 1) - 1) (msPerDay - 1).
Proof.
  unfold endOfMonth, setHours, setFullYear, getFullYear, getMonth.
  rewrite Day_MakeDate by apply TimeWithinDay_range.
  rewrite MakeDay_firstOfMonth. unfold monthIndex.
  change (MakeTime 23 59 59 999) with (msPerDay - 1). f_equal.
  replace (12 * YearFromDay (Day t) + (MonthFromDay (Day t) + 1))
    with (12 * YearFromDay (Day t) + MonthFromDay (Day t) + 1) by lia.
  lia.
Qed.

Lemma calendar_days (currentDate : Z) :
  exists days,
    OrderCalendar.daysInMonth currentDate = Some days /\
    28 <= Z.of_nat (List.length days) <= 31 /\
    days = map (fun i => MakeDate (firstOfMonth (monthIndex (Day currentDate))
                                    + Z.of_nat i) 0)
             (seq 0 (Z.to_nat (monthLength (monthIndex (Day currentDate))))).
Proof.
  set (k := monthIndex (Day currentDate)).
  unfold OrderCalendar.daysInMonth, OrderCalendar.monthStart,
    OrderCalendar.monthEnd, eachDayOfInterval.
  rewrite startOfMonth_value, endOfMonth_value. fold k.
  pose proof (monthLength_range k) as Hlo. pose proof (monthLength_upper k) as Hhi.
  pose proof (monthLength_eq k) as Heq.
  assert (Hle : MakeDate (firstOfMonth k) 0
                <= MakeDate (firstOfMonth (k + 1) - 1) (msPerDay - 1))
    by (unfold MakeDate, msPerDay; lia).
  destruct (Z.leb_spec (MakeDate (firstOfMonth k) 0)
              (MakeDate (firstOfMonth (k + 1) - 1) (msPerDay - 1))); [ | lia].
  unfold setHours. rewrite Day_MakeDate by (unfold msPerDay; lia).
  change (MakeTime 0 0 0 0) with 0.
  rewrite (eachDayLoop_days (Z.to_nat (monthLength k)));
    [ | rewrite Day_MakeDate by (unfold msPerDay; lia); lia | lia].
  eexists. split; [reflexivity | ]. cbn [app].
  rewrite length_map, length_seq. split; [lia | reflexivity].
Qed.

Lemma WeekDay_range (d : Z) : 0 <= WeekDay d <= 6.
Proof. unfold WeekDay. lia. Qed.

(** X8. The empty cells before the first day are as many as the weekday of
    the first of the month (0 for Sunday), so that each day stands under its
    weekday; with the days they fill at most 37 cells, that is six rows of
    seven at most. *)
Theorem calendar_grid_fits (currentDate : Z) :
  let k := monthIndex (Day currentDate) in
  OrderCalendar.emptyCells currentDate = WeekDay (firstOfMonth k) /\
  (forall i, (OrderCalendar.emptyCells currentDate + i) mod 7
             = WeekDay (firstOfMonth k + i)) /\
  exists days,
    OrderCalendar.daysInMonth currentDate = Some days /\
    0 <= OrderCalendar.emptyCells currentDate + Z.of_nat (List.length days) <= 37.
Proof.
  intros k.
  assert (He : OrderCalendar.emptyCells currentDate = WeekDay (firstOfMonth k)).
  { unfold OrderCalendar.emptyCells, OrderCalendar.monthStart, getDay.
    rewrite startOfMonth_value, Day_MakeDate by (unfold msPerDay; lia).
    reflexivity. }
  split; [exact He | split].
  - intros i. rewrite He. unfold WeekDay. lia.
  - destruct (calendar_days currentDate) as (days & Hd & Hl & _).
    exists days. split; [exact Hd | ].
    rewrite He. pose proof (WeekDay_range (firstOfMonth k)). lia.
Qed.

(** X9. Going to the next month shows the month after the current one and
    going to the previous month the one before, also from the last days of
    a long month; next and then previous shows the same month again, on a
    day of the month that is the same or, after a shorter month, lower. *)
Theorem calendar_navigation (currentDate : Z) :
  monthIndex (Day (OrderCalendar.goToNextMonth currentDate))
    = monthIndex (Day currentDate) + 1 /\
  monthIndex (Day (OrderCalendar.goToPreviousMonth currentDate))
    = monthIndex (Day currentDate) - 1 /\
  OrderCalendar.daysInMonth
    (OrderCalendar.goToPreviousMonth (OrderCalendar.goToNextMonth currentDate))
    = OrderCalendar.daysInMonth currentDate /\
  getDate (OrderCalendar.goToPreviousMonth (OrderCalendar.goToNextMonth currentDate))
    <= getDate currentDate.
Proof.
  unfold OrderCalendar.goToNextMonth, OrderCalendar.goToPreviousMonth, subMonths.
  split; [apply addMonths_monthIndex | split; [apply addMonths_monthIndex | ]].
  assert (Hk : monthIndex (Day (addMonths (addMonths currentDate 1) (- (1))))
               = monthIndex (Day currentDate))
    by (rewrite !addMonths_monthIndex; lia).
  split.
  - destruct (calendar_days (addMonths (addMonths currentDate 1) (- (1))))
      as (d1 & -> & _ & ->).
    destruct (calendar_days currentDate) as (d2 & -> & _ & ->).
    rewrite Hk. reflexivity.
  - rewrite !addMonths_getDate. lia.
Qed.

(** ** Pages of the delivery list *)

Lemma slice_in_range {A : Type} (l : list A) (a b : Z) :
  0 <= a <= b ->
  Driver.slice l a b = firstn (Z.to_nat (b - a)) (skipn (Z.to_nat a) l).
Proof.
  intros H. unfold Driver.slice.
  destruct (Z.ltb_spec a 0); [lia | ]. destruct (Z.ltb_spec b 0); [lia | ].
  set (len := Z.of_nat (List.length l)).
  destruct (Z.le_gt_cases len a) as [Hla | Hla].
  - rewrite !skipn_all2 by lia. rewrite !firstn_nil. reflexivity.
  - replace (Z.min a len) with a by lia.
    destruct (Z.le_gt_cases b len) as [Hlb | Hlb].
    + replace (Z.min b len) with b by lia. reflexivity.
    + replace (Z.min b len) with len by lia.
      rewrite !firstn_all2; [reflexivity | | ]; rewrite length_skipn; lia.
Qed.

Lemma page_value {A : Type} (l : list A) (p : Z) :
  1 <= p ->
  Driver.getPaginatedOrders l p
  = firstn 20 (skipn (Z.to_nat ((p - 1) * 20)) l).
Proof.
  intros Hp. unfold Driver.getPaginatedOrders, Driver.itemsPerPage.
  rewrite slice_in_range by lia.
  replace ((p - 1) * 20 + 20 - (p - 1) * 20) with 20 by lia. reflexivity.
Qed.

Lemma totalPages_value {A : Type} (l : list A) :
  Driver.getTotalPages l = (Z.of_nat (List.length l) + 19) / 20.
Proof. unfold Driver.getTotalPages, Driver.itemsPerPage. lia. Qed.

Lemma chunks_concat {A : Type} (n : nat) (l : list A) :
  (List.length l <= 20 * n)%nat ->
  List.concat (map (fun i => firstn 20 (skipn (20 * i)%nat l)) (seq 0 n)) = l.
Proof.
  revert l. induction n as [ | n IH]; intros l Hl.
  - destruct l; [reflexivity | cbn in Hl; lia].
  - cbn [seq map List.concat]. rewrite <- seq_shift, map_map.
    change (skipn (20 * 0)%nat l) with l.
    etransitivity; [ | apply (firstn_skipn 20 l)]. f_equal.
    etransitivity; [ | apply (IH (skipn 20 l)); rewrite length_skipn; lia].
    f_equal. apply map_ext. intros i. rewrite skipn_skipn. do 2 f_equal. lia.
Qed.

(** X10. The pages 1 to [getTotalPages] hold the whole list, each entry
    once and in order; no page holds more than 20 entries. *)
Theorem pages_partition_the_list {A : Type} (orders : list A) :
  List.concat (map (fun i => Driver.getPaginatedOrders orders (Z.of_nat i + 1))
            (seq 0 (Z.to_nat (Driver.getTotalPages orders))))
  = orders /\
  forall currentPage,
    (List.length (Driver.getPaginatedOrders orders currentPage) <= 20)%nat.
Proof.
  split.
  - rewrite <- (chunks_concat (Z.to_nat (Driver.getTotalPages orders)) orders) at 2
      by (rewrite totalPages_value; lia).
    f_equal. apply map_ext. intros i. rewrite page_value by lia.
    do 2 f_equal. lia.
  - intros p. unfold Driver.getPaginatedOrders, Driver.slice, Driver.itemsPerPage.
    rewrite length_firstn. 
    set (len := Z.of_nat (List.length orders)).
    destruct (Z.ltb_spec ((p - 1) * 20) 0), (Z.ltb_spec ((p - 1) * 20 + 20) 0); lia.
Qed.

(** X11. A page from 1 to [getTotalPages] is never empty, and every page
    past [getTotalPages] is; the list has no page exactly when it is
    empty. *)
Theorem page_empty_past_the_last {A : Type} (orders : list A) (currentPage : Z) :
  1 <= currentPage ->
  (Driver.getPaginatedOrders orders currentPage = []
   <-> Driver.getTotalPages orders < currentPage) /\
  (Driver.getTotalPages orders = 0 <-> orders = []).
Proof.
  intros Hp. rewrite totalPages_value, page_value by exact Hp. split.
  - set (len := Z.of_nat (List.length orders)).
    split.
    + intros He. apply (f_equal (@List.length A)) in He.
      rewrite length_firstn, length_skipn in He. cbn [List.length] in He.
      fold len. apply Z.div_lt_upper_bound; lia.
    + intros Hlt. rewrite skipn_all2; [apply firstn_nil | ].
      fold len in Hlt.
      assert (len + 19 < 20 * currentPage).
      { destruct (Z.lt_ge_cases (len + 19) (20 * currentPage)); [assumption | ].
        assert (currentPage <= (len + 19) / 20)
          by (apply Z.div_le_lower_bound; lia). lia. }
      lia.
  - destruct orders as [ | x l]; cbn [List.length].
    + split; reflexivity.
    + split; [ | discriminate]. intros H. exfalso.
      assert (1 <= (Z.of_nat (S (List.length l)) + 19) / 20)
        by (apply Z.div_le_lower_bound; lia). lia.
Qed.




(** ** The status filter of the delivery list *)

Lemma existsb_eqb_In (status : string) (l : list string) :
  existsb (String.eqb status) l = true <-> In status l.
Proof.
  rewrite existsb_exists. split.
  - intros (x & Hin & He). apply String.eqb_eq in He. subst. exact Hin.
  - intros Hin. exists status. split; [exact Hin | apply String.eqb_refl].
Qed.

Lemma In_toggle (status s : string) (prev : list string) :
  In s (Driver.toggleDriverStatusFilter status prev)
  <-> (s = status /\ ~ In status prev) \/ (s <> status /\ In s prev).
Proof.
  unfold Driver.toggleDriverStatusFilter.
  destruct (existsb (String.eqb status) prev) eqn:E.
  - apply existsb_eqb_In in E. rewrite filter_In.
    destruct (String.eqb_spec s status) as [-> | Hne]; cbn [negb].
    + split; [intros [_ H]; discriminate | intros [[_ H] | [H _]]; tauto].
    + split; [intros [H _]; right; auto | intros [[H _] | [_ H]]; [tauto | auto]].
  - assert (Hn : ~ In status prev).
    { intros H. apply existsb_eqb_In in H. congruence. }
    rewrite in_app_iff. cbn [In].
    destruct (String.eqb_spec s status) as [-> | Hne].
    + split; [intros _; left; auto | intros _; right; left; reflexivity].
    + split; [intros [H | [H | []]]; [right; auto | congruence]
             | intros [[H _] | [_ H]]; [congruence | left; exact H]].
Qed.

(** X13. Toggling a status selects it when it was not selected and
    deselects it when it was; no other status is touched, and a selection
    without repeats stays without repeats. *)
Theorem toggle_flips_one_status (status : string) (prev : list string) :
  (In status (Driver.toggleDriverStatusFilter status prev) <-> ~ In status prev) /\
  (forall other, other <> status ->
     (In other (Driver.toggleDriverStatusFilter status prev) <-> In other prev)) /\
  (NoDup prev -> NoDup (Driver.toggleDriverStatusFilter status prev)).
Proof.
  split; [ | split].
  - rewrite In_toggle. tauto.
  - intros other Hne. rewrite In_toggle. tauto.
  - intros Hnd. unfold Driver.toggleDriverStatusFilter.
    destruct (existsb (String.eqb status) prev) eqn:E.
    + apply NoDup_filter. exact Hnd.
    + assert (Hn : ~ In status prev).
      { intros H. apply existsb_eqb_In in H. congruence. }
      apply NoDup_app; [exact Hnd | repeat constructor; intros [] | ].
      intros x Hx [<- | []]. exact (Hn Hx).
Qed.

(** X14. Toggling the same status twice selects the same statuses as
    before; when the status was not selected, the selection comes back
    exactly as it was. *)
Theorem toggle_twice_restores (status : string) (prev : list string) :
  (forall s,
     In s (Driver.toggleDriverStatusFilter status
             (Driver.toggleDriverStatusFilter status prev)) <-> In s prev) /\
  (~ In status prev ->
   Driver.toggleDriverStatusFilter status
     (Driver.toggleDriverStatusFilter status prev) = prev).
Proof.
  split.
  - intros s. rewrite !In_toggle.
    destruct (String.eqb_spec s status) as [-> | Hne];
      destruct (in_dec string_dec status prev); tauto.
  - intros Hn. unfold Driver.toggleDriverStatusFilter at 2.
    destruct (existsb (String.eqb status) prev) eqn:E;
      [apply existsb_eqb_In in E; contradiction | ].
    unfold Driver.toggleDriverStatusFilter.
    replace (existsb (String.eqb status) (prev ++ [status])) with true
      by (symmetry; apply existsb_eqb_In, in_app_iff; right; left; reflexivity).
    rewrite filter_app. cbn [filter]. rewrite String.eqb_refl. cbn [negb].
    rewrite app_nil_r. apply forallb_filter_id. apply forallb_forall.
    intros x Hx. destruct (String.eqb_spec x status) as [-> | ]; [contradiction | reflexivity].
Qed.

(** ** Notifications *)

Lemma unread_after_markAsRead (notifId : string) (prev : list Layout.Notification) :
  (Layout.unreadCount (Layout.markAsRead notifId prev)
   + List.length (filter (fun n => negb (Layout.is_read n)
                                   && (Layout.notif_id n =? notifId)%string) prev)
   = Layout.unreadCount prev)%nat.
Proof.
  unfold Layout.unreadCount, Layout.markAsRead.
  induction prev as [ | n l IH]; [reflexivity | ].
  cbn [map filter].
  destruct (String.eqb_spec (Layout.notif_id n) notifId) as [He | Hne].
  - cbn [Layout.read Layout.is_read negb]. rewrite andb_true_r.
    destruct (Layout.is_read n); cbn [negb List.length]; lia.
  - rewrite andb_false_r. destruct (Layout.is_read n); cbn [negb List.length]; lia.
Qed.

(** X15. Marking a notification as read takes the unread notifications
    with that id out of the unread count and nothing else; it leaves every
    notification with another id as it was and keeps the order and number
    of the notifications. *)
Theorem markAsRead_counts (notifId : string) (prev : list Layout.Notification) :
  (Layout.unreadCount (Layout.markAsRead notifId prev)
   + List.length (filter (fun n => negb (Layout.is_read n)
                                   && (Layout.notif_id n =? notifId)%string) prev)
   = Layout.unreadCount prev)%nat /\
  map Layout.notif_id (Layout.markAsRead notifId prev) = map Layout.notif_id prev /\
  filter (fun n => negb (Layout.notif_id n =? notifId)%string)
    (Layout.markAsRead notifId prev)
  = filter (fun n => negb (Layout.notif_id n =? notifId)%string) prev /\
  Layout.markAsRead notifId (Layout.markAsRead notifId prev)
  = Layout.markAsRead notifId prev.
Proof.
  split; [apply unread_after_markAsRead | ].
  unfold Layout.markAsRead. split; [ | split].
  - rewrite map_map. apply map_ext. intros n.
    destruct (Layout.notif_id n =? notifId)%string; reflexivity.
  - induction prev as [ | n l IH]; [reflexivity | ]. cbn [map filter].
    destruct (String.eqb_spec (Layout.notif_id n) notifId) as [He | Hne].
    + cbn [Layout.read Layout.notif_id]. rewrite He, String.eqb_refl.
      cbn [negb]. exact IH.
    + apply String.eqb_neq in Hne. rewrite Hne. cbn [negb]. f_equal. exact IH.
  - rewrite map_map. apply map_ext. intros n.
    destruct (String.eqb_spec (Layout.notif_id n) notifId) as [He | Hne].
    + cbn [Layout.read Layout.notif_id]. rewrite He, String.eqb_refl. reflexivity.
    + apply String.eqb_neq in Hne. rewrite Hne. reflexivity.
Qed.

(** X16. After marking all as read no notification is unread, and marking
    single notifications afterwards changes nothing. *)
Theorem markAllAsRead_clears (prev : list Layout.Notification) :
  Layout.unreadCount (Layout.markAllAsRead prev) = 0%nat /\
  map Layout.notif_id (Layout.markAllAsRead prev) = map Layout.notif_id prev /\
  forall notifId,
    Layout.markAsRead notifId (Layout.markAllAsRead prev)
    = Layout.markAllAsRead prev.
Proof.
  unfold Layout.unreadCount, Layout.markAllAsRead, Layout.markAsRead.
  split; [ | split].
  - induction prev as [ | n l IH]; [reflexivity | exact IH].
  - rewrite map_map. apply map_ext. reflexivity.
  - intros notifId. rewrite map_map. apply map_ext. intros n.
    destruct (Layout.notif_id (Layout.read n) =? notifId)%string; reflexivity.
Qed.

(** ** Orders by date *)

Lemma ordersForKey_push (key k : string) (e : OrderCalendar.Entry)
    (g : OrderCalendar.Grouped) :
  OrderCalendar.delivery
    (OrderCalendar.ordersForKey (OrderCalendar.pushDelivery key e g) k)
  = (if (key =? k)%string
     then OrderCalendar.delivery (OrderCalendar.ordersForKey g k) ++ [e]
     else OrderCalendar.delivery (OrderCalendar.ordersForKey g k)) /\
  OrderCalendar.pickup
    (OrderCalendar.ordersForKey (OrderCalendar.pushDelivery key e g) k)
  = OrderCalendar.pickup (OrderCalendar.ordersForKey g k).
Proof.
  unfold OrderCalendar.ordersForKey.
  induction g as [ | [k' day] rest IH]; cbn [OrderCalendar.pushDelivery OrderCalendar.lookup].
  - destruct (key =? k)%string; cbn; auto.
  - destruct (String.eqb_spec k' key) as [-> | Hk].
    + cbn [OrderCalendar.lookup]. destruct (key =? k)%string; cbn; auto.
    + cbn [OrderCalendar.lookup]. destruct (String.eqb_spec k' k) as [-> | Hk'].
      * apply String.eqb_neq in Hk. rewrite String.eqb_sym, Hk. auto.
      * exact IH.
Qed.

Lemma In_delivery_push (key k : string) (e x : OrderCalendar.Entry)
    (g : OrderCalendar.Grouped) :
  In x (OrderCalendar.delivery
          (OrderCalendar.ordersForKey (OrderCalendar.pushDelivery key e g) k))
  <-> In x (OrderCalendar.delivery (OrderCalendar.ordersForKey g k))
      \/ (key = k /\ x = e).
Proof.
  rewrite (proj1 (ordersForKey_push key k e g)).
  destruct (String.eqb_spec key k) as [-> | Hne].
  - rewrite in_app_iff. cbn [In]. split; intros [H | H]; auto.
    + destruct H as [<- | []]. auto.
    + destruct H as [_ ->]. auto.
  - split; [auto | intros [H | [H _]]; [exact H | contradiction]].
Qed.

Section Grouping.

Variable parseISO : string -> option Z.
Variable trim : string -> string.

Lemma listed_push (key k : string) (e x : OrderCalendar.Entry)
    (g : OrderCalendar.Grouped) :
  OrderCalendar.listed (OrderCalendar.pushDelivery key e g) k x
  <-> OrderCalendar.listed g k x \/ (key = k /\ x = e).
Proof. apply In_delivery_push. Qed.

Lemma listed_addOccurrence (o : Occurrence) (g : OrderCalendar.Grouped)
    (k : string) (x : OrderCalendar.Entry) :
  OrderCalendar.listed (OrderCalendar.addOccurrence parseISO g o) k x
  <-> OrderCalendar.listed g k x
      \/ (x = OrderCalendar.Projected o /\ OrderCalendar.occurrenceOn parseISO k o).
Proof.
  unfold OrderCalendar.addOccurrence, OrderCalendar.occurrenceOn.
  destruct (delivery_date (occurrence_order o)) as [s | ] eqn:Hs.
  - destruct (OrderCalendar.dayKey parseISO s) as [key | ] eqn:Hk.
    + rewrite listed_push. split.
      * intros [H | [-> ->]]; [auto | ]. right. split; [reflexivity | ].
        exists s. auto.
      * intros [H | [-> (s' & [= <-] & Hk')]]; [auto | ].
        right. rewrite Hk in Hk'. injection Hk' as <-. auto.
    + split; [auto | ]. intros [H | [_ (s' & [= <-] & Hk')]]; [exact H | congruence].
  - split; [auto | ]. intros [H | [_ (s' & Hs' & _)]]; [exact H | discriminate].
Qed.

Lemma listed_addOccurrences (occs : list Occurrence) (g : OrderCalendar.Grouped)
    (k : string) (x : OrderCalendar.Entry) :
  OrderCalendar.listed (fold_left (OrderCalendar.addOccurrence parseISO) occs g) k x
  <-> OrderCalendar.listed g k x
      \/ exists occ, In occ occs /\ x = OrderCalendar.Projected occ /\
                     OrderCalendar.occurrenceOn parseISO k occ.
Proof.
  revert g. induction occs as [ | o occs IH]; intros g; cbn [fold_left].
  - split; [auto | intros [H | (occ & [] & _)]; exact H].
  - rewrite IH, listed_addOccurrence. cbn [In]. split.
    + intros [[H | [Hx Ho]] | (occ & Hin & Hx & Ho)]; auto.
      * right. exists o. auto.
      * right. exists occ. auto.
    + intros [H | (occ & [<- | Hin] & Hx & Ho)]; auto.
      right. exists occ. auto.
Qed.

Lemma orderOn_key (dateTypeFilter k1 k2 : string) (order : Order) :
  OrderCalendar.orderOn parseISO trim dateTypeFilter k1 order ->
  OrderCalendar.orderOn parseISO trim dateTypeFilter k2 order -> k1 = k2.
Proof.
  intros [_ (s1 & Hs1 & _ & Hk1)] [_ (s2 & Hs2 & _ & Hk2)]. congruence.
Qed.

(** One pass of the outer loop either skips the order, or lists it under
    the day of its date and, for a recurring order with a pattern, lists
    its occurrences after it. *)
Lemma addOrder_cases (dateTypeFilter : string) (now : Z) (order : Order)
    (g : OrderCalendar.Grouped) :
  ((forall k, ~ OrderCalendar.orderOn parseISO trim dateTypeFilter k order) /\
   OrderCalendar.addOrder parseISO trim dateTypeFilter now g order = g) \/
  (exists key,
     OrderCalendar.orderOn parseISO trim dateTypeFilter key order /\
     OrderCalendar.addOrder parseISO trim dateTypeFilter now g order
     = if is_recurring order
          && (match recurrence_pattern order with Some _ => true | None => false end)
       then fold_left (OrderCalendar.addOccurrence parseISO)
              (OrderCalendar.futureOccurrences parseISO now order)
              (OrderCalendar.pushDelivery key (OrderCalendar.Real order) g)
       else OrderCalendar.pushDelivery key (OrderCalendar.Real order) g).
Proof.
  unfold OrderCalendar.addOrder, OrderCalendar.orderOn.
  destruct (delivery_date order) as [s | ] eqn:Hs.
  2: { left. split; [ | reflexivity]. intros k [_ (s' & Hs' & _)]. discriminate. }
  cbv zeta.
  destruct (String.eqb_spec (trim s) "") as [Het | Hne]; cbn [negb andb].
  { left. split; [ | reflexivity].
    intros k [_ (s' & [= <-] & Hn & _)]. contradiction. }
  destruct (String.eqb_spec dateTypeFilter "all") as [Hall | Hnall]; cbn [orb].
  - destruct (OrderCalendar.dayKey parseISO (trim s)) as [key | ] eqn:Hk.
    + right. exists key. split; [ | reflexivity].
      split; [auto | ]. exists s. auto.
    + left. split; [ | reflexivity].
      intros k [_ (s' & [= <-] & _ & Hk')]. congruence.
  - destruct (String.eqb_spec dateTypeFilter "delivery") as [Hdel | Hndel].
    + destruct (OrderCalendar.dayKey parseISO (trim s)) as [key | ] eqn:Hk.
      * right. exists key. split; [ | reflexivity].
        split; [auto | ]. exists s. auto.
      * left. split; [ | reflexivity].
        intros k [_ (s' & [= <-] & _ & Hk')]. congruence.
    + left. split; [ | reflexivity]. intros k [[Hf | Hf] _]; contradiction.
Qed.

(** What one pass of the outer loop adds to a day. *)
Lemma listed_addOrder (dateTypeFilter : string) (now : Z) (order : Order)
    (g : OrderCalendar.Grouped) (k : string) (x : OrderCalendar.Entry) :
  OrderCalendar.listed (OrderCalendar.addOrder parseISO trim dateTypeFilter now g order) k x
  <-> OrderCalendar.listed g k x
      \/ (x = OrderCalendar.Real order
          /\ OrderCalendar.orderOn parseISO trim dateTypeFilter k order)
      \/ (exists occ k0,
            OrderCalendar.orderOn parseISO trim dateTypeFilter k0 order /\
            is_recurring order = true /\ recurrence_pattern order <> None /\
            In occ (OrderCalendar.futureOccurrences parseISO now order) /\
            x = OrderCalendar.Projected occ /\
            OrderCalendar.occurrenceOn parseISO k occ).
Proof.
  destruct (addOrder_cases dateTypeFilter now order g)
    as [[Hno ->] | (key & Hon & ->)].
  - split; [auto | ].
    intros [H | [[_ H] | (occ & k0 & H & _)]]; [exact H | | ]; destruct (Hno _ H).
  - destruct (is_recurring order) eqn:Hrec; cbn [andb].
    + destruct (recurrence_pattern order) as [pattern | ] eqn:Hpat.
      * rewrite listed_addOccurrences, listed_push. split.
        -- intros [[H | [<- ->]] | (occ & Hin & Hx & Ho)]; auto.
           right. right. exists occ, key.
           split; [exact Hon | split; [reflexivity | split; [discriminate | ]]].
           auto.
        -- intros [H | [[-> H] | (occ & k0 & _ & _ & _ & Hin & Hx & Ho)]]; auto.
           ++ left. right. split; [ | reflexivity].
              apply (orderOn_key dateTypeFilter key k order Hon H).
           ++ right. exists occ. auto.
      * rewrite listed_push. split.
        -- intros [H | [<- ->]]; auto.
        -- intros [H | [[-> H] | (occ & k0 & _ & _ & Hp & _)]]; auto.
           ++ right. split; [ | reflexivity].
              apply (orderOn_key dateTypeFilter key k order Hon H).
           ++ contradiction.
    + rewrite listed_push. split.
      * intros [H | [<- ->]]; auto.
      * intros [H | [[-> H] | (occ & k0 & _ & Hr & _)]]; auto.
        -- right. split; [ | reflexivity].
           apply (orderOn_key dateTypeFilter key k order Hon H).
        -- discriminate.
Qed.

Lemma listed_ordersByDate (dateTypeFilter : string) (now : Z)
    (orders : list Order) (g : OrderCalendar.Grouped) (k : string)
    (x : OrderCalendar.Entry) :
  OrderCalendar.listed
    (fold_left (OrderCalendar.addOrder parseISO trim dateTypeFilter now) orders g) k x
  <-> OrderCalendar.listed g k x
      \/ exists order, In order orders /\
           ((x = OrderCalendar.Real order
             /\ OrderCalendar.orderOn parseISO trim dateTypeFilter k order)
            \/ (exists occ k0,
                  OrderCalendar.orderOn parseISO trim dateTypeFilter k0 order /\
                  is_recurring order = true /\ recurrence_pattern order <> None /\
                  In occ (OrderCalendar.futureOccurrences parseISO now order) /\
                  x = OrderCalendar.Projected occ /\
                  OrderCalendar.occurrenceOn parseISO k occ)).
Proof.
  revert g. induction orders as [ | o orders IH]; intros g; cbn [fold_left].
  - split; [auto | intros [H | (order & [] & _)]; exact H].
  - rewrite IH, listed_addOrder. cbn [In]. split.
    + intros [[H | H] | (order & Hin & H)]; auto.
      * right. exists o. auto.
      * right. exists order. auto.
    + intros [H | (order & [<- | Hin] & H)]; auto.
      right. exists order. auto.
Qed.

Lemma pickup_fold_occurrences (occs : list Occurrence) (g : OrderCalendar.Grouped)
    (k : string) :
  OrderCalendar.pickup
    (OrderCalendar.ordersForKey
       (fold_left (OrderCalendar.addOccurrence parseISO) occs g) k)
  = OrderCalendar.pickup (OrderCalendar.ordersForKey g k).
Proof.
  revert g. induction occs as [ | o occs IH]; intros g; cbn [fold_left];
    [reflexivity | ].
  rewrite IH. unfold OrderCalendar.addOccurrence.
  destruct (delivery_date (occurrence_order o)); [ | reflexivity].
  destruct (OrderCalendar.dayKey parseISO s); [ | reflexivity].
  apply ordersForKey_push.
Qed.

Lemma pickup_ordersByDate (dateTypeFilter : string) (now : Z)
    (orders : list Order) (g : OrderCalendar.Grouped) (k : string) :
  OrderCalendar.pickup
    (OrderCalendar.ordersForKey
       (fold_left (OrderCalendar.addOrder parseISO trim dateTypeFilter now) orders g) k)
  = OrderCalendar.pickup (OrderCalendar.ordersForKey g k).
Proof.
  revert g. induction orders as [ | o orders IH]; intros g; cbn [fold_left];
    [reflexivity | ].
  rewrite IH.
  destruct (addOrder_cases dateTypeFilter now o g) as [[_ ->] | (key & _ & ->)];
    [reflexivity | ].
  destruct (is_recurring o
            && match recurrence_pattern o with Some _ => true | None => false end).
  - rewrite pickup_fold_occurrences. apply ordersForKey_push.
  - apply ordersForKey_push.
Qed.

(** An occurrence the projection returns is a copy of the order at one of
    the projected dates, and the order is one the projection takes. *)
Lemma futureOccurrences_from (now : Z) (order : Order) (occ : Occurrence) :
  In occ (OrderCalendar.futureOccurrences parseISO now order) ->
  (exists d, occ = occurrenceAt order d) /\
  (exists pattern s, projectable order = Some (pattern, s)).
Proof.
  unfold OrderCalendar.futureOccurrences, generateRecurringOccurrences.
  destruct (projection_cases parseISO now order)
    as [[_ Hd] | (p & d & startDate & st & Hpr & _ & _ & _ & Hd)];
    rewrite Hd; cbn [option_map map].
  - intros [].
  - intros Hin. apply in_map_iff in Hin. destruct Hin as (x & <- & _).
    split; [exists x; reflexivity | exists p, d; exact Hpr].
Qed.

End Grouping.

Section CalendarDays.

Variable parseISO : string -> option Z.
Variable trim : string -> string.

(** X17. An order is listed among the deliveries of a day exactly when it
    is one of the orders, the date filter lets deliveries through, and its
    trimmed delivery date is not empty and reads as that day; an order whose
    date cannot be read is left out and takes no other order with it. *)
Theorem order_listed_on_its_day (dateTypeFilter : string) (now : Z)
    (orders : list Order) (date : Z) (order : Order) :
  In (OrderCalendar.Real order)
     (OrderCalendar.delivery
        (OrderCalendar.getOrdersForDate
           (OrderCalendar.ordersByDate parseISO trim dateTypeFilter now orders) date))
  <-> In order orders /\
      OrderCalendar.orderOn parseISO trim dateTypeFilter
        (OrderCalendar.formatDay date) order.
Proof.
  change (OrderCalendar.listed
            (fold_left (OrderCalendar.addOrder parseISO trim dateTypeFilter now) orders [])
            (OrderCalendar.formatDay date) (OrderCalendar.Real order)
          <-> In order orders /\
              OrderCalendar.orderOn parseISO trim dateTypeFilter
                (OrderCalendar.formatDay date) order).
  rewrite listed_ordersByDate. split.
  - intros [[] | (o & Hin & [[[= <-] Hon] | (occ & k0 & _ & _ & _ & _ & Hx & _)])];
      [auto | discriminate].
  - intros [Hin Hon]. right. exists order. auto.
Qed.

(** X18. A projected occurrence listed on a day comes from a recurring
    order of the list that is itself listed and is not cancelled; it carries
    that order's id and status, is marked as a recurring instance, and its
    own date reads as that day.  A cancelled order therefore brings no
    projected entry to any day. *)
Theorem projected_entry_origin (dateTypeFilter : string) (now : Z)
    (orders : list Order) (date : Z) (occ : Occurrence) :
  In (OrderCalendar.Projected occ)
     (OrderCalendar.delivery
        (OrderCalendar.getOrdersForDate
           (OrderCalendar.ordersByDate parseISO trim dateTypeFilter now orders) date)) ->
  exists order k0,
    In order orders /\
    OrderCalendar.orderOn parseISO trim dateTypeFilter k0 order /\
    is_recurring order = true /\
    status order <> "cancelled" /\
    originalOrderId occ = id order /\
    isRecurringInstance occ = true /\
    status (occurrence_order occ) = status order /\
    OrderCalendar.occurrenceOn parseISO (OrderCalendar.formatDay date) occ.
Proof.
  intros H.
  apply (proj1 (listed_ordersByDate parseISO trim dateTypeFilter now orders []
                  (OrderCalendar.formatDay date) (OrderCalendar.Projected occ))) in H.
  destruct H
    as [[] | (o & Hin & [[Hx _] | (occ' & k0 & Hon & Hrec & _ & Hocc & [= <-] & Hk)])];
    [discriminate | ].
  apply futureOccurrences_from in Hocc.
  destruct Hocc as [(d & ->) (pattern & s & Hp)].
  apply projectable_fields in Hp. destruct Hp as (_ & _ & _ & Hst).
  exists o, k0.
  split; [exact Hin | split; [exact Hon | split; [exact Hrec | ]]].
  split; [exact Hst | split; [reflexivity | split; [reflexivity | ]]].
  split; [reflexivity | exact Hk].
Qed.

(** X19. No day of the calendar ever lists a pickup: whether a day has
    orders is decided by its deliveries alone. *)
Theorem calendar_never_lists_pickups (dateTypeFilter : string) (now : Z)
    (orders : list Order) (date : Z) :
  OrderCalendar.pickup
    (OrderCalendar.getOrdersForDate
       (OrderCalendar.ordersByDate parseISO trim dateTypeFilter now orders) date)
  = [].
Proof.
  unfold OrderCalendar.getOrdersForDate, OrderCalendar.ordersByDate.
  cbv zeta. rewrite pickup_ordersByDate. reflexivity.
Qed.

End CalendarDays.

(** ** The badges of a day cell *)

Lemma existsb_count {A : Type} (p : A -> bool) (l : list A) :
  existsb p l = true <-> (0 < List.length (filter p l))%nat.
Proof.
  induction l as [ | a l IH]; cbn [existsb filter].
  - cbn. split; [discriminate | lia].
  - destruct (p a); cbn [orb List.length]; [split; [lia | reflexivity] | exact IH].
Qed.

Lemma badge_classes_exclusive (e : OrderCalendar.Entry) :
  (Nat.b2n (OrderCalendar.isCancelled e) + Nat.b2n (OrderCalendar.isCompleted e)
   + Nat.b2n (OrderCalendar.isInProgress e) <= 1)%nat.
Proof.
  unfold OrderCalendar.isCancelled, OrderCalendar.isCompleted,
    OrderCalendar.isInProgress. cbn [existsb].
  repeat match goal with
         | |- context [String.eqb (OrderCalendar.entryStatus e) ?s] =>
             destruct (String.eqb_spec (OrderCalendar.entryStatus e) s)
         end; cbn; try lia; congruence.
Qed.

(** X20. In a day cell each badge is shown exactly when its count is at
    least one, and no entry is counted by two badges: the cancelled, the
    completed and the in-progress count add up to at most the number of
    entries of the day. *)
Theorem day_badges_count_each_entry_once (dayOrders : OrderCalendar.DayOrders) :
  (OrderCalendar.hasCancelledOrders dayOrders = true
   <-> (0 < OrderCalendar.cancelledCount dayOrders)%nat) /\
  (OrderCalendar.hasCompletedOrders dayOrders = true
   <-> (0 < OrderCalendar.completedCount dayOrders)%nat) /\
  (OrderCalendar.hasInProgressOrders dayOrders = true
   <-> (0 < OrderCalendar.inProgressCount dayOrders)%nat) /\
  (OrderCalendar.cancelledCount dayOrders + OrderCalendar.completedCount dayOrders
   + OrderCalendar.inProgressCount dayOrders
   <= List.length (OrderCalendar.dayEntries dayOrders))%nat.
Proof.
  unfold OrderCalendar.hasCancelledOrders, OrderCalendar.hasCompletedOrders,
    OrderCalendar.hasInProgressOrders, OrderCalendar.cancelledCount,
    OrderCalendar.completedCount, OrderCalendar.inProgressCount.
  repeat split; try apply existsb_count.
  induction (OrderCalendar.dayEntries dayOrders) as [ | e l IH]; [cbn; lia | ].
  pose proof (badge_classes_exclusive e) as He. cbn [filter List.length].
  destruct (OrderCalendar.isCancelled e), (OrderCalendar.isCompleted e),
    (OrderCalendar.isInProgress e); cbn [Nat.b2n List.length] in *; lia.
Qed.

(** ** The filters of the calendar *)

(** X21. With the same status filter, the recurring and the one-time view
    split the orders of the full view between them: each order of the full
    view is in exactly one of the two, so their sizes add up; and with
    both filters on [all] every order is kept. *)
Theorem order_type_filter_splits (statusFilter : string) (orders : list Order) :
  (forall order,
     In order (OrderCalendar.filteredOrders "all" statusFilter orders) <->
     In order (OrderCalendar.filteredOrders "recurring" statusFilter orders) \/
     In order (OrderCalendar.filteredOrders "one-time" statusFilter orders)) /\
  (forall order,
     In order (OrderCalendar.filteredOrders "recurring" statusFilter orders) ->
     In order (OrderCalendar.filteredOrders "one-time" statusFilter orders) ->
     False) /\
  (List.length (OrderCalendar.filteredOrders "recurring" statusFilter orders)
   + List.length (OrderCalendar.filteredOrders "one-time" statusFilter orders)
   = List.length (OrderCalendar.filteredOrders "all" statusFilter orders))%nat /\
  OrderCalendar.filteredOrders "all" "all" orders = orders.
Proof.
  unfold OrderCalendar.filteredOrders.
  cbn [String.eqb Ascii.eqb Bool.eqb andb negb].
  split; [ | split; [ | split]].
  - intros order. rewrite !filter_In. cbn beta.
    destruct (is_recurring order); cbn [negb]; split; intros H;
      repeat match goal with
             | H : _ /\ _ |- _ => destruct H
             | H : _ \/ _ |- _ => destruct H
             end; try discriminate; auto.
  - intros order. rewrite !filter_In. cbn beta.
    destruct (is_recurring order); cbn [negb]; intros [_ H1] [_ H2]; discriminate.
  - induction orders as [ | o l IH]; [reflexivity | ]. cbn [filter].
    destruct (is_recurring o); cbn [negb];
      destruct (negb (statusFilter =? "all")%string
                && negb (status o =? statusFilter)%string);
      cbn [List.length]; lia.
  - induction orders as [ | o l IH]; [reflexivity | ]. cbn [filter]. f_equal. exact IH.
Qed.

(** ** The date filter of the delivery list *)

Lemma newDate_today (now : Z) :
  ~ (0 <= getFullYear now <= 99) ->
  Driver.newDate (getFullYear now) (getMonth now) (getDate now)
  = MakeDate (Day now) 0.
Proof.
  intros Hy. unfold Driver.newDate.
  destruct (Z.leb_spec 0 (getFullYear now)), (Z.leb_spec (getFullYear now) 99);
    cbn [andb]; try lia;
    unfold getFullYear, getMonth, getDate; rewrite MakeDay_fields; reflexivity.
Qed.

Lemma Day_midnight (a : Z) : Day (MakeDate a 0) = a.
Proof. apply Day_MakeDate. unfold msPerDay. lia. Qed.

Lemma Day_shift (a n : Z) : Day (MakeDate a 0 + n * msPerDay) = a + n.
Proof. unfold Day, MakeDate, msPerDay. lia. Qed.

Lemma within_days (a b t : Z) :
  (MakeDate a 0 <= t /\ t <= MakeDate b (msPerDay - 1)) <-> a <= Day t <= b.
Proof.
  pose proof (time_value_split t) as Ht. pose proof (TimeWithinDay_range t) as Hr.
  revert Ht Hr. generalize (Day t) (TimeWithinDay t). intros d tod -> Hr.
  unfold MakeDate, msPerDay in *. lia.
Qed.

(** X22. The week filter lets through exactly the orders whose delivery
    date lies in the week of the clock, Sunday to Saturday, whatever their
    time of day. *)
Theorem week_filter_is_the_calendar_week (parseDate : string -> option Z)
    (now : Z) (driverDateFrom driverDateTo : string) (t : Z) :
  ~ (0 <= getFullYear now <= 99) ->
  Driver.matchesDateFilter parseDate "week" now driverDateFrom driverDateTo (Some t)
    = true
  <-> (Day t + 4) / 7 = (Day now + 4) / 7.
Proof.
  intros Hy. unfold Driver.matchesDateFilter.
  cbn [String.eqb Ascii.eqb Bool.eqb]. rewrite (newDate_today now Hy). cbv zeta.
  replace (getDate (MakeDate (Day now) 0) - getDay (MakeDate (Day now) 0))
    with (getDate (MakeDate (Day now) 0) + - getDay (MakeDate (Day now) 0)) by lia.
  rewrite setDate_shift.
  assert (Hsow : setHours (MakeDate (Day now) 0
                           + - getDay (MakeDate (Day now) 0) * msPerDay) 0 0 0 0
                 = MakeDate (Day now - WeekDay (Day now)) 0).
  { unfold setHours, getDay. rewrite Day_shift, Day_midnight.
    change (MakeTime 0 0 0 0) with 0. f_equal. }
  rewrite !Hsow, setDate_shift. unfold setHours. rewrite Day_shift.
  change (MakeTime 23 59 59 999) with (msPerDay - 1).
  unfold Driver.notBefore, Driver.notAfter.
  rewrite andb_true_iff, Z.leb_le, Z.leb_le, within_days.
  unfold WeekDay. lia.
Qed.

(** X23. The month filter lets through exactly the orders whose delivery
    date lies in the month of the clock. *)
Theorem month_filter_is_the_calendar_month (parseDate : string -> option Z)
    (now : Z) (driverDateFrom driverDateTo : string) (t : Z) :
  ~ (0 <= getFullYear now <= 99) ->
  Driver.matchesDateFilter parseDate "month" now driverDateFrom driverDateTo (Some t)
    = true
  <-> monthIndex (Day t) = monthIndex (Day now).
Proof.
  intros Hy. unfold Driver.matchesDateFilter.
  cbn [String.eqb Ascii.eqb Bool.eqb]. rewrite (newDate_today now Hy). cbv zeta.
  unfold getFullYear, getMonth. rewrite Day_midnight.
  change (YearFromDay (Day now)) with (getFullYear now).
  unfold Driver.newDate.
  destruct (Z.leb_spec 0 (getFullYear now)), (Z.leb_spec (getFullYear now) 99);
    cbn [andb]; try lia.
  all: unfold getFullYear; rewrite !MakeDay_firstOfMonth.
  all: unfold setHours; rewrite !Day_midnight.
  all: change (MakeTime 0 0 0 0) with 0;
       change (MakeTime 23 59 59 999) with (msPerDay - 1).
  all: unfold Driver.notBefore, Driver.notAfter.
  all: rewrite andb_true_iff, Z.leb_le, Z.leb_le, within_days.
  all: change (12 * YearFromDay (Day now) + MonthFromDay (Day now))
         with (monthIndex (Day now)).
  all: replace (12 * YearFromDay (Day now) + (MonthFromDay (Day now) + 1))
         with (monthIndex (Day now) + 1) by (unfold monthIndex; lia).
  all: pose proof (day_from_month_start (Day t));
       pose proof (DateFromDay_pos (Day t));
       pose proof (day_before_next_month (Day t)).
  all: split;
       [ intros Hr; apply monthIndex_unique; lia
       | intros <-; lia ].
Qed.

Lemma dayName_letter (w : Z) :
  exists c rest, Driver.dayName w = String c rest /\ c <> "I"%char.
Proof.
  unfold Driver.dayName.
  repeat match goal with
         | |- context [match ?x with _ => _ end] => destruct x
         end;
    eexists; eexists; (split; [reflexivity | discriminate]).
Qed.

(** X24. An order whose delivery date cannot be read fails the filters for
    today, this week and this month, and passes every other setting of the
    date filter, a custom range included, whatever the range is. *)
Theorem unreadable_date_and_date_filter (parseDate : string -> option Z)
    (driverDateFilter : string) (now : Z) (driverDateFrom driverDateTo : string) :
  Driver.matchesDateFilter parseDate driverDateFilter now driverDateFrom
    driverDateTo None
  = negb ((driverDateFilter =? "today")%string
          || (driverDateFilter =? "week")%string
          || (driverDateFilter =? "month")%string).
Proof.
  unfold Driver.matchesDateFilter. cbv zeta.
  destruct (driverDateFilter =? "today")%string.
  - cbn [orb negb]. unfold Driver.toDateString.
    destruct (dayName_letter
                (getDay (Driver.newDate (getFullYear now) (getMonth now) (getDate now))))
      as (c & rest & -> & Hc).
    cbn [String.append String.eqb]. apply Ascii.eqb_neq in Hc.
    rewrite Ascii.eqb_sym, Hc. reflexivity.
  - destruct (driverDateFilter =? "week")%string; [reflexivity | ].
    destruct (driverDateFilter =? "month")%string; [reflexivity | ].
    destruct (driverDateFilter =? "custom")%string; [ | reflexivity].
    cbn [orb negb].
    destruct (negb (driverDateFrom =? "")%string || negb (driverDateTo =? "")%string);
      [ | reflexivity].
    destruct (driverDateFrom =? "")%string, (driverDateTo =? "")%string;
      try destruct (parseDate driverDateFrom);
      try destruct (parseDate (driverDateTo ++ "T23:59:59.999")%string);
      reflexivity.
Qed.

(** ** Time zones

    The properties above are stated on local times.  In a zone that keeps
    one offset the program on time values is the program on local times
    moved by the offset, which carries them over; where the clocks change,
    a day of the calendar need not last 24 hours and a local time may not
    exist. *)

Lemma chained_map {A B : Type} (f : A -> B) (R : B -> B -> Prop) (a : A)
    (l : list A) :
  chained R (f a) (map f l) <-> chained (fun x y => R (f x) (f y)) a l.
Proof.
  revert a. induction l as [ | b l IH]; intros a; cbn [map chained].
  - tauto.
  - rewrite IH. tauto.
Qed.

Lemma map_shift_back (c : Z) (l l' : list Z) :
  map (fun t => t + c) l = l' -> l = map (fun t => t - c) l'.
Proof.
  intros <-. rewrite map_map. rewrite <- (map_id l) at 1.
  apply map_ext. intros t. lia.
Qed.

Lemma Some_eq {A : Type} (a b : A) : Some a = Some b -> a = b.
Proof. intros [= H]. exact H. Qed.

Lemma leb_shift (a b c : Z) : (a + c <=? b + c) = (a <=? b).
Proof. destruct (Z.leb_spec a b), (Z.leb_spec (a + c) (b + c)); lia || reflexivity. Qed.

Lemma ltb_shift (a b c : Z) : (a + c <? b + c) = (a <? b).
Proof. destruct (Z.ltb_spec a b), (Z.ltb_spec (a + c) (b + c)); lia || reflexivity. Qed.

Section FixedOffset.

Variable z : Zoned.Zone.
Variable offset : Z.
Hypothesis Hz : Zoned.fixedOffset z offset.

Lemma LocalTime_fixed (t : Z) : Zoned.LocalTime z t = t + offset.
Proof. unfold Zoned.LocalTime. rewrite (proj1 (Hz t)). reflexivity. Qed.

Lemma UTC_fixed (t : Z) : Zoned.UTC z t = t - offset.
Proof. unfold Zoned.UTC. rewrite (proj2 (Hz t)). reflexivity. Qed.

Lemma getDate_fixed (t : Z) : Zoned.getDate z t = getDate (t + offset).
Proof. unfold Zoned.getDate. rewrite LocalTime_fixed. reflexivity. Qed.

Lemma setDate_fixed (t dt : Z) :
  Zoned.setDate z t dt = setDate (t + offset) dt - offset.
Proof. unfold Zoned.setDate. rewrite UTC_fixed, LocalTime_fixed. reflexivity. Qed.

Lemma setHours_fixed (t h m sec ms : Z) :
  Zoned.setHours z t h m sec ms = setHours (t + offset) h m sec ms - offset.
Proof. unfold Zoned.setHours. rewrite UTC_fixed, LocalTime_fixed. reflexivity. Qed.

Lemma addDays_fixed (t n : Z) :
  Zoned.addDays z t n = addDays (t + offset) n - offset.
Proof.
  unfold Zoned.addDays, addDays. rewrite setDate_fixed, getDate_fixed.
  destruct (n =? 0); [lia | reflexivity].
Qed.

Lemma addMonths_fixed (t n : Z) :
  Zoned.addMonths z t n = addMonths (t + offset) n - offset.
Proof.
  unfold Zoned.addMonths, addMonths. destruct (n =? 0); [lia | ]. cbv zeta.
  unfold Zoned.setMonth, Zoned.setFullYear, Zoned.getMonth, Zoned.getFullYear.
  rewrite !getDate_fixed, !UTC_fixed, !LocalTime_fixed, !Z.sub_add.
  destruct (getDate (t + offset)
            >=? getDate (setMonth (t + offset) (getMonth (t + offset) + n + 1) 0));
    reflexivity.
Qed.

Lemma startOfMonth_fixed (t : Z) :
  Zoned.startOfMonth z t = startOfMonth (t + offset) - offset.
Proof.
  unfold Zoned.startOfMonth, startOfMonth.
  rewrite setHours_fixed, setDate_fixed, Z.sub_add. reflexivity.
Qed.

Lemma endOfMonth_fixed (t : Z) :
  Zoned.endOfMonth z t = endOfMonth (t + offset) - offset.
Proof.
  unfold Zoned.endOfMonth, endOfMonth. cbv zeta.
  unfold Zoned.setFullYear, Zoned.getMonth, Zoned.getFullYear.
  rewrite setHours_fixed, !UTC_fixed, !LocalTime_fixed, Z.sub_add. reflexivity.
Qed.

Lemma nextOccurrence_fixed (ft : string) (fv t : Z) :
  Zoned.nextOccurrence z ft fv t
  = option_map (fun x => x - offset) (nextOccurrence ft fv (t + offset)).
Proof.
  unfold Zoned.nextOccurrence, nextOccurrence, Zoned.addWeeks, addWeeks.
  rewrite !addDays_fixed, addMonths_fixed.
  destruct (ft =? "daily")%string; [reflexivity | ].
  destruct (ft =? "weekly")%string; [reflexivity | ].
  destruct (ft =? "monthly")%string; reflexivity.
Qed.

Lemma pushed_shifted (b : bool) (l : list Z) (t : Z) :
  map (fun x => x + offset) (if b then l ++ [t] else l)
  = if b then map (fun x => x + offset) l ++ [t + offset]
    else map (fun x => x + offset) l.
Proof. destruct b; [rewrite map_app | ]; reflexivity. Qed.

(** The loop on time values and the loop on local times run side by
    side. *)
Lemma occurrenceLoop_fixed (fuel : nat) (ft : string) (fv s h : Z)
    (st : LoopState) :
  option_map (shifted offset) (Zoned.occurrenceLoop z fuel ft fv s h st)
  = occurrenceLoop fuel ft fv (s + offset) (h + offset) (shifted offset st).
Proof.
  revert st. induction fuel as [ | fuel IH]; intros st;
    cbn [Zoned.occurrenceLoop occurrenceLoop shifted currentDate iteration
         occurrences];
    rewrite leb_shift, ?ltb_shift;
    destruct ((currentDate st <=? h) && (iteration st <? maxIterations));
    try reflexivity.
  rewrite nextOccurrence_fixed.
  destruct (nextOccurrence ft fv (currentDate st + offset)) as [next | ];
    cbn [option_map].
  - rewrite IH. unfold shifted.
    cbn [currentDate iteration occurrences].
    rewrite pushed_shifted, Z.sub_add. reflexivity.
  - unfold shifted. cbn [currentDate iteration occurrences].
    rewrite pushed_shifted. reflexivity.
Qed.

Lemma projectionLoop_fixed (now : Z) (pattern : RecurrencePattern) (s : Z) :
  option_map (shifted offset) (Zoned.projectionLoop z now pattern s)
  = projectionLoop (now + offset) pattern (s + offset).
Proof.
  unfold Zoned.projectionLoop, projectionLoop.
  rewrite occurrenceLoop_fixed, addMonths_fixed, Z.sub_add. reflexivity.
Qed.

Section Parsed.

Variable parseISO : string -> option Z.

Lemma occurrenceDates_fixed (now : Z) (order : Order) :
  option_map (map (fun t => t + offset))
    (Zoned.occurrenceDates z parseISO now order)
  = occurrenceDates (parsedLocal offset parseISO) (now + offset) order.
Proof.
  unfold Zoned.occurrenceDates, occurrenceDates, parsedLocal.
  destruct (projectable order) as [[pattern d] | ]; [ | reflexivity].
  destruct (parseISO d) as [s | ]; cbn [option_map]; [ | reflexivity].
  rewrite <- (projectionLoop_fixed now pattern s).
  destruct (Zoned.projectionLoop z now pattern s); reflexivity.
Qed.

(** In a zone with a fixed offset a call returns what the function on
    local times returns for the local times of the clock and of the
    delivery date. *)
Lemma generateRecurringOccurrences_fixed (now : Z) (order : Order) :
  Zoned.generateRecurringOccurrences z parseISO now order
  = generateRecurringOccurrences (parsedLocal offset parseISO) (now + offset) order.
Proof.
  unfold Zoned.generateRecurringOccurrences, generateRecurringOccurrences.
  rewrite <- (occurrenceDates_fixed now order).
  destruct (Zoned.occurrenceDates z parseISO now order) as [dates | ];
    cbn [option_map]; [ | reflexivity].
  f_equal. rewrite map_map. apply map_ext. intros t.
  unfold Zoned.occurrenceAt, occurrenceAt, Zoned.format.
  rewrite LocalTime_fixed. reflexivity.
Qed.

(** X4. In a zone with a fixed offset, daily and weekly orders: the
    projected dates are the delivery date plus 1, 2, 3, ... intervals of
    24 hours a day, as many as fit up to the horizon and at most 199. *)
Theorem daily_weekly_dates (now : Z) (order : Order)
    (pattern : RecurrencePattern) (d : string) (startDate step : Z) :
  projectable order = Some (pattern, d) ->
  parseISO d = Some startDate ->
  1 <= frequencyValueOf pattern ->
  startDate <= Zoned.addMonths z now 6 ->
  (frequency_type pattern = "daily" /\
   step = frequencyValueOf pattern * msPerDay) \/
  (frequency_type pattern = "weekly" /\
   step = frequencyValueOf pattern * 7 * msPerDay) ->
  Zoned.occurrenceDates z parseISO now order
  = Some (map (fun k => startDate + Z.of_nat k * step)
            (seq 1 (Z.to_nat (Z.min 199
                                ((Zoned.addMonths z now 6 - startDate) / step))))).
Proof.
  intros Hp Hparse Hv Hh Hft.
  pose proof (occurrenceDates_fixed now order) as Ht.
  rewrite addMonths_fixed in *.
  rewrite (local_daily_weekly_dates (parsedLocal offset parseISO) (now + offset) order pattern d
             (startDate + offset) step Hp) in Ht;
    [ | unfold parsedLocal; rewrite Hparse; reflexivity | exact Hv | lia
      | exact Hft].
  destruct (Zoned.occurrenceDates z parseISO now order) as [dates | ];
    [ | discriminate].
  injection Ht as Ht. apply map_shift_back in Ht. rewrite Ht, map_map.
  f_equal.
  replace (addMonths (now + offset) 6 - offset - startDate)
    with (addMonths (now + offset) 6 - (startDate + offset)) by lia.
  apply map_ext. intros k. lia.
Qed.

(** X5. In a zone with a fixed offset, monthly orders: each projected date
    falls in the month one interval of months after the date before it, at
    the same local time of day, on the same day of the month when that
    month has it and on its last day when not; a day once cut down to a
    short month stays cut down. *)
Theorem monthly_dates_month_by_month (now : Z) (order : Order)
    (pattern : RecurrencePattern) (d : string) (startDate : Z) :
  projectable order = Some (pattern, d) ->
  parseISO d = Some startDate ->
  frequency_type pattern = "monthly" ->
  1 <= frequencyValueOf pattern ->
  exists dates,
    Zoned.occurrenceDates z parseISO now order = Some dates /\
    chained (fun a b =>
               monthIndex (Day (Zoned.LocalTime z b))
               = monthIndex (Day (Zoned.LocalTime z a)) + frequencyValueOf pattern /\
               Zoned.getDate z b
               = Z.min (Zoned.getDate z a)
                   (monthLength (monthIndex (Day (Zoned.LocalTime z b)))) /\
               TimeWithinDay (Zoned.LocalTime z b)
               = TimeWithinDay (Zoned.LocalTime z a))
      startDate dates.
Proof.
  intros Hp Hparse Hft Hv.
  pose proof (occurrenceDates_fixed now order) as Ht.
  destruct (local_monthly_dates (parsedLocal offset parseISO) (now + offset) order pattern d
              (startDate + offset) Hp) as (datesL & Hd & Hch);
    [unfold parsedLocal; rewrite Hparse; reflexivity | exact Hft | exact Hv | ].
  rewrite Hd in Ht.
  destruct (Zoned.occurrenceDates z parseISO now order) as [dates | ];
    [ | discriminate].
  injection Ht as <-. exists dates. split; [reflexivity | ].
  apply (chained_map (fun t => t + offset)) in Hch.
  revert Hch. apply chained_impl. intros a b.
  rewrite !getDate_fixed, !LocalTime_fixed. auto.
Qed.

End Parsed.

Lemma eachDayLoop_fixed (fuel : nat) (current endTime : Z) (dates : list Z) :
  option_map (map (fun t => t + offset))
    (Zoned.eachDayLoop z fuel current endTime dates)
  = eachDayLoop fuel (current + offset) (endTime + offset)
      (map (fun t => t + offset) dates).
Proof.
  revert current dates. induction fuel as [ | fuel IH]; intros current dates;
    cbn [Zoned.eachDayLoop eachDayLoop]; rewrite leb_shift;
    destruct (current <=? endTime); try reflexivity.
  rewrite IH, setHours_fixed, setDate_fixed, getDate_fixed, !Z.sub_add, map_app.
  reflexivity.
Qed.

Lemma daysInMonth_fixed (current : Z) :
  option_map (map (fun t => t + offset)) (Zoned.daysInMonth z current)
  = OrderCalendar.daysInMonth (current + offset).
Proof.
  unfold Zoned.daysInMonth, OrderCalendar.daysInMonth, OrderCalendar.monthStart,
    OrderCalendar.monthEnd, Zoned.eachDayOfInterval, eachDayOfInterval.
  rewrite startOfMonth_fixed, endOfMonth_fixed.
  rewrite <- (leb_shift (startOfMonth (current + offset) - offset)
                (endOfMonth (current + offset) - offset) offset), !Z.sub_add.
  destruct (startOfMonth (current + offset) <=? endOfMonth (current + offset));
    [ | reflexivity].
  rewrite eachDayLoop_fixed, setHours_fixed, !Z.sub_add. reflexivity.
Qed.

(** X7. In a zone with a fixed offset the calendar lists every day of the
    month of [currentDate] once and in order, from the first day to the
    last, each at its local midnight; there are 28 to 31 of them. *)
Theorem calendar_lists_the_month (currentDate : Z) :
  let k := monthIndex (Day (Zoned.LocalTime z currentDate)) in
  Zoned.daysInMonth z currentDate
  = Some (map (fun i => Zoned.UTC z (MakeDate (firstOfMonth k + Z.of_nat i) 0))
            (seq 0 (Z.to_nat (monthLength k)))) /\
  28 <= monthLength k <= 31.
Proof.
  intros k. split; [ | split; [apply monthLength_range | apply monthLength_upper]].
  subst k. rewrite LocalTime_fixed.
  pose proof (daysInMonth_fixed currentDate) as Ht.
  destruct (calendar_days (currentDate + offset)) as (days & Hd & _ & ->).
  rewrite Hd in Ht.
  destruct (Zoned.daysInMonth z currentDate) as [days | ]; [ | discriminate].
  apply Some_eq in Ht. apply map_shift_back in Ht. rewrite Ht, map_map.
  apply (f_equal (@Some (list Z))). apply map_ext. intros i.
  rewrite UTC_fixed. reflexivity.
Qed.

End FixedOffset.

(** Where the clocks change the dates are not 24 hours apart: in New South
    Wales the day after 2025-10-04 10:00 local time comes 23 hours later,
    and the day after 2025-10-04 02:30 is set to 02:30 of a day that has no
    such time, and comes out as 03:30. *)
Lemma sydney_clocks_go_forward :
  Zoned.LocalTime Zoned.sydney (ymd_hms 2025 10 4 0 0 0) = ymd_hms 2025 10 4 10 0 0 /\
  Zoned.addDays Zoned.sydney (ymd_hms 2025 10 4 0 0 0) 1
  = ymd_hms 2025 10 4 0 0 0 + 23 * 3600000 /\
  Zoned.LocalTime Zoned.sydney
    (Zoned.addDays Zoned.sydney (Zoned.UTC Zoned.sydney (ymd_hms 2025 10 4 2 30 0)) 1)
  = ymd_hms 2025 10 5 3 30 0.
Proof. repeat split; vm_compute; reflexivity. Qed.

(** ** Closed instances of the further properties *)

Lemma occurrences_one_interval_apart_witness :
  exists dates,
    occurrenceDates parseCalendarDate (ymd 2024 7 31) weeklyOrder = Some dates /\
    chained (fun a b => nextOccurrence "weekly" 1 a = Some b) (ymd 2025 1 1) dates.
Proof.
  apply (occurrences_one_interval_apart parseCalendarDate (ymd 2024 7 31) weeklyOrder
           {| frequency_type := "weekly"; frequency_value := Some 1 |}
           "2025-01-01" (ymd 2025 1 1)).
  - reflexivity.
  - vm_compute. reflexivity.
  - cbn. lia.
Defined.

Lemma projection_runs_up_to_horizon_witness :
  exists dates next,
    occurrenceDates parseCalendarDate (ymd 2024 7 31) weeklyOrder = Some dates /\
    nextOccurrence "weekly" 1 (last dates (ymd 2025 1 1)) = Some next /\
    (addMonths (ymd 2024 7 31) 6 < next \/ List.length dates = 199%nat).
Proof.
  apply (projection_runs_up_to_horizon parseCalendarDate (ymd 2024 7 31) weeklyOrder
           {| frequency_type := "weekly"; frequency_value := Some 1 |}
           "2025-01-01" (ymd 2025 1 1)).
  - reflexivity.
  - vm_compute. reflexivity.
  - reflexivity.
  - cbn. lia.
  - vm_compute. discriminate.
Defined.

Lemma daily_weekly_dates_witness :
  Zoned.occurrenceDates (Zoned.fixedZone 36000000)
    (Zoned.parseLocal (Zoned.fixedZone 36000000)) (ymd 2024 7 31)
    (withPattern weeklyOrder "daily" (Some 2))
  = Some (map (fun k => ymd 2025 1 1 - 36000000 + Z.of_nat k * (2 * msPerDay))
            (seq 1 (Z.to_nat
                      (Z.min 199
                         ((Zoned.addMonths (Zoned.fixedZone 36000000)
                             (ymd 2024 7 31) 6
                           - (ymd 2025 1 1 - 36000000))
                          / (2 * msPerDay)))))).
Proof.
  apply (daily_weekly_dates (Zoned.fixedZone 36000000) 36000000
           (fun t => conj eq_refl eq_refl)
           (Zoned.parseLocal (Zoned.fixedZone 36000000)) (ymd 2024 7 31)
           (withPattern weeklyOrder "daily" (Some 2))
           {| frequency_type := "daily"; frequency_value := Some 2 |}
           "2025-01-01" (ymd 2025 1 1 - 36000000) (2 * msPerDay)).
  - reflexivity.
  - vm_compute. reflexivity.
  - cbn. lia.
  - vm_compute. discriminate.
  - left. split; reflexivity.
Defined.

Lemma monthly_dates_month_by_month_witness :
  exists dates,
    Zoned.occurrenceDates (Zoned.fixedZone 36000000)
      (Zoned.parseLocal (Zoned.fixedZone 36000000)) (ymd 2024 10 31)
      (withPattern weeklyOrder "monthly" (Some 1)) = Some dates /\
    chained (fun a b =>
               monthIndex (Day (Zoned.LocalTime (Zoned.fixedZone 36000000) b))
               = monthIndex (Day (Zoned.LocalTime (Zoned.fixedZone 36000000) a)) + 1 /\
               Zoned.getDate (Zoned.fixedZone 36000000) b
               = Z.min (Zoned.getDate (Zoned.fixedZone 36000000) a)
                   (monthLength
                      (monthIndex (Day (Zoned.LocalTime (Zoned.fixedZone 36000000) b)))) /\
               TimeWithinDay (Zoned.LocalTime (Zoned.fixedZone 36000000) b)
               = TimeWithinDay (Zoned.LocalTime (Zoned.fixedZone 36000000) a))
      (ymd 2025 1 1 - 36000000) dates.
Proof.
  apply (monthly_dates_month_by_month (Zoned.fixedZone 36000000) 36000000
           (fun t => conj eq_refl eq_refl)
           (Zoned.parseLocal (Zoned.fixedZone 36000000)) (ymd 2024 10 31)
           (withPattern weeklyOrder "monthly" (Some 1))
           {| frequency_type := "monthly"; frequency_value := Some 1 |}
           "2025-01-01" (ymd 2025 1 1 - 36000000)).
  - reflexivity.
  - vm_compute. reflexivity.
  - reflexivity.
  - cbn. lia.
Defined.

Lemma calendar_lists_the_month_witness :
  Zoned.daysInMonth (Zoned.fixedZone 36000000) (ymd_hms 2025 2 10 9 30 0)
  = Some (map (fun i =>
                 Zoned.UTC (Zoned.fixedZone 36000000)
                   (MakeDate
                      (firstOfMonth
                         (monthIndex
                            (Day (Zoned.LocalTime (Zoned.fixedZone 36000000)
                                    (ymd_hms 2025 2 10 9 30 0))))
                       + Z.of_nat i) 0))
            (seq 0 (Z.to_nat
                      (monthLength
                         (monthIndex
                            (Day (Zoned.LocalTime (Zoned.fixedZone 36000000)
                                    (ymd_hms 2025 2 10 9 30 0)))))))) /\
  28 <= monthLength
          (monthIndex (Day (Zoned.LocalTime (Zoned.fixedZone 36000000)
                              (ymd_hms 2025 2 10 9 30 0)))) <= 31.
Proof.
  exact (calendar_lists_the_month (Zoned.fixedZone 36000000) 36000000
           (fun t => conj eq_refl eq_refl) (ymd_hms 2025 2 10 9 30 0)).
Defined.

Lemma projected_dates_increase_witness :
  exists dates,
    occurrenceDates parseCalendarDate (ymd 2024 7 31) weeklyOrder = Some dates /\
    StronglySorted Z.lt dates /\ NoDup dates.
Proof.
  apply (projected_dates_increase parseCalendarDate (ymd 2024 7 31) weeklyOrder
           {| frequency_type := "weekly"; frequency_value := Some 1 |}).
  - reflexivity.
  - cbn. lia.
Defined.

Lemma page_empty_past_the_last_witness :
  (Driver.getPaginatedOrders (seq 0 45) 3 = []
   <-> Driver.getTotalPages (seq 0 45) < 3) /\
  (Driver.getTotalPages (seq 0 45) = 0 <-> seq 0 45 = []).
Proof.
  apply (page_empty_past_the_last (seq 0 45) 3). lia.
Defined.


Lemma projected_entry_origin_witness :
  exists order k0,
    In order [weeklyOrder; cancelledOrder] /\
    OrderCalendar.orderOn parseCalendarDate (fun s => s) "all" k0 order /\
    is_recurring order = true /\
    status order <> "cancelled" /\
    originalOrderId (occurrenceAt weeklyOrder (ymd 2025 1 8)) = id order /\
    isRecurringInstance (occurrenceAt weeklyOrder (ymd 2025 1 8)) = true /\
    status (occurrence_order (occurrenceAt weeklyOrder (ymd 2025 1 8)))
      = status order /\
    OrderCalendar.occurrenceOn parseCalendarDate
      (OrderCalendar.formatDay (ymd 2025 1 8))
      (occurrenceAt weeklyOrder (ymd 2025 1 8)).
Proof.
  apply (projected_entry_origin parseCalendarDate (fun s => s) "all"
           (ymd 2024 7 31) [weeklyOrder; cancelledOrder] (ymd 2025 1 8)
           (occurrenceAt weeklyOrder (ymd 2025 1 8))).
  vm_compute. left. reflexivity.
Defined.

Lemma week_filter_is_the_calendar_week_witness :
  Driver.matchesDateFilter parseCalendarDate "week" (ymd_hms 2025 1 1 15 0 0)
    "" "" (Some (ymd_hms 2025 1 4 23 59 59)) = true
  <-> (Day (ymd_hms 2025 1 4 23 59 59) + 4) / 7
      = (Day (ymd_hms 2025 1 1 15 0 0) + 4) / 7.
Proof.
  apply (week_filter_is_the_calendar_week parseCalendarDate
           (ymd_hms 2025 1 1 15 0 0) "" "" (ymd_hms 2025 1 4 23 59 59)).
  assert (H : getFullYear (ymd_hms 2025 1 1 15 0 0) = 2025)
    by (vm_compute; reflexivity).
  rewrite H. lia.
Defined.

Lemma month_filter_is_the_calendar_month_witness :
  Driver.matchesDateFilter parseCalendarDate "month" (ymd_hms 2025 1 1 15 0 0)
    "" "" (Some (ymd_hms 2025 1 31 23 59 59)) = true
  <-> monthIndex (Day (ymd_hms 2025 1 31 23 59 59))
      = monthIndex (Day (ymd_hms 2025 1 1 15 0 0)).
Proof.
  apply (month_filter_is_the_calendar_month parseCalendarDate
           (ymd_hms 2025 1 1 15 0 0) "" "" (ymd_hms 2025 1 31 23 59 59)).
  assert (H : getFullYear (ymd_hms 2025 1 1 15 0 0) = 2025)
    by (vm_compute; reflexivity).
  rewrite H. lia.
Defined.



(** ** A later horizon *)

Lemma occurrenceLoop_longer_horizon (ft : string) (fv startDate h1 h2 : Z)
    (fuel : nat) (st st1 st2 : LoopState) :
  h1 <= h2 ->
  occurrenceLoop fuel ft fv startDate h1 st = Some st1 ->
  occurrenceLoop fuel ft fv startDate h2 st = Some st2 ->
  exists more, occurrences st2 = occurrences st1 ++ more.
Proof.
  intros Hh. revert st. induction fuel as [ | fuel IH]; intros st H1 H2.
  - cbn [occurrenceLoop] in H1, H2.
    destruct ((currentDate st <=? h1) && (iteration st <? maxIterations));
      [discriminate | ].
    destruct ((currentDate st <=? h2) && (iteration st <? maxIterations));
      [discriminate | ].
    exists []. rewrite app_nil_r. congruence.
  - destruct (Z.leb_spec (currentDate st) h1) as [Hc1 | Hc1].
    + cbn [occurrenceLoop] in H1, H2.
      destruct (Z.leb_spec (currentDate st) h1); [ | lia].
      destruct (Z.leb_spec (currentDate st) h2); [ | lia].
      cbn [andb] in H1, H2.
      destruct (iteration st <? maxIterations);
        [ | exists []; rewrite app_nil_r; congruence].
      destruct (nextOccurrence ft fv (currentDate st)) as [next | ];
        [ | exists []; rewrite app_nil_r; congruence].
      exact (IH _ H1 H2).
    + apply occurrenceLoop_pushes in H2. destruct H2 as (pushed & Ho & _).
      cbn [occurrenceLoop] in H1.
      destruct (Z.leb_spec (currentDate st) h1); [lia | ].
      cbn [andb] in H1. injection H1 as <-. exists pushed. exact Ho.
Qed.

(** X25. A call whose horizon is not earlier than that of another call on
    the same order returns the dates of that call, in the same order, and
    possibly further dates after them: dates once projected stay as they
    are while the horizon moves on. *)
Theorem later_horizon_extends_the_list (parseISO : string -> option Z)
    (now1 now2 : Z) (order : Order) :
  addMonths now1 6 <= addMonths now2 6 ->
  exists dates more,
    occurrenceDates parseISO now1 order = Some dates /\
    occurrenceDates parseISO now2 order = Some (dates ++ more).
Proof.
  intros Hh. unfold occurrenceDates.
  destruct (projectable order) as [[pattern s] | ];
    [ | exists [], []; split; reflexivity].
  destruct (parseISO s) as [startDate | ];
    [ | exists [], []; split; reflexivity].
  destruct (projectionLoop_returns now1 pattern startDate) as [st1 Hl1].
  destruct (projectionLoop_returns now2 pattern startDate) as [st2 Hl2].
  rewrite Hl1, Hl2. cbn [option_map].
  unfold projectionLoop in Hl1, Hl2.
  destruct (occurrenceLoop_longer_horizon _ _ _ _ _ _ _ _ _ Hh Hl1 Hl2)
    as [more Hm].
  exists (occurrences st1), more. rewrite Hm. split; reflexivity.
Qed.

Lemma later_horizon_extends_the_list_witness :
  exists dates more,
    occurrenceDates parseCalendarDate (ymd 2024 7 31) weeklyOrder = Some dates /\
    occurrenceDates parseCalendarDate (ymd 2024 8 15) weeklyOrder
    = Some (dates ++ more).
Proof.
  apply (later_horizon_extends_the_list parseCalendarDate (ymd 2024 7 31)
           (ymd 2024 8 15) weeklyOrder).
  vm_compute. discriminate.
Defined.
